(** * Adafruit PyPortal driver: fetch/render pipeline

    A shallow embedding of [adafruit_pyportal.py]: the pure word wrapper
    [wrap_nicely], the JSON path traversal, the scene-stack manipulations
    of [set_text] and [set_background], the streaming download [wget] and
    the [fetch] pipeline.

    Python values are a small inductive type, exceptions are data, and the
    methods of [PyPortal] are computations in a state-and-exception monad
    over the fields of the object.  Everything the module reaches through
    an external library (the ESP32 coprocessor, the HTTP client, the file
    system, the JSON and integer parsers, the success callback) is an
    oracle of a [World] record; each external call is recorded in an event
    trace, in program order. *)

From Stdlib Require Import List String Ascii ZArith Bool Lia Arith.
From Stdlib Require Import DecimalString.
Import ListNotations.
Open Scope string_scope.
Open Scope Z_scope.

(* ================================================================== *)
(** ** Python values and exceptions *)

(** The values that flow through the pipeline: JSON documents, paths,
    extracted values.  JSON objects have string keys only; floats are not
    modelled. *)
#[warnings="-register-all"]
Inductive PyVal : Type :=
| PNone
| PBool (b : bool)
| PInt (z : Z)
| PStr (s : string)
| PList (l : list PyVal)
| PTuple (l : list PyVal)
| PDict (d : list (string * PyVal)).

Inductive ExnKind : Type :=
| ValueError | KeyError | IndexError | TypeError | AttributeError
| OSError | RuntimeError | MemoryError
| ReloadException.   (* raised by supervisor.reload() *)

Record Exn : Type := mkExn { exn_kind : ExnKind; exn_args : list PyVal }.

Definition ExnKind_eqb (a b : ExnKind) : bool :=
  match a, b with
  | ValueError, ValueError | KeyError, KeyError | IndexError, IndexError
  | TypeError, TypeError | AttributeError, AttributeError
  | OSError, OSError | RuntimeError, RuntimeError
  | MemoryError, MemoryError | ReloadException, ReloadException => true
  | _, _ => false
  end.

(** Python truthiness ([if x:], [not x]). *)
Definition truthy (v : PyVal) : bool :=
  match v with
  | PNone => false
  | PBool b => b
  | PInt z => negb (z =? 0)
  | PStr s => negb (String.eqb s "")
  | PList l | PTuple l => negb (Nat.eqb (List.length l) 0)
  | PDict d => negb (Nat.eqb (List.length d) 0)
  end.

(** [isinstance(v, (list, tuple))] *)
Definition is_list_or_tuple (v : PyVal) : bool :=
  match v with
  | PList _ | PTuple _ => true
  | _ => false
  end.

(** Sequence indexing with Python's negative indices. *)
Definition seq_index {A : Type} (l : list A) (i : Z) : option A :=
  let n := Z.of_nat (List.length l) in
  if (0 <=? i) && (i <? n) then nth_error l (Z.to_nat i)
  else if (i <? 0) && (0 <=? n + i) then nth_error l (Z.to_nat (n + i))
  else None.

Fixpoint assoc (k : string) (d : list (string * PyVal)) : option PyVal :=
  match d with
  | [] => None
  | (k', v) :: rest => if String.eqb k k' then Some v else assoc k rest
  end.

Definition string_get (s : string) (i : Z) : option string :=
  match seq_index (list_ascii_of_string s) i with
  | Some c => Some (String c "")
  | None => None
  end.

Definition bool_index (b : bool) : Z := if b then 1 else 0.

(** [value[x]].  A missing dictionary key raises [KeyError] whose first
    argument is the key itself; a sequence index out of range raises
    [IndexError]. *)
Definition getitem (value x : PyVal) : Exn + PyVal :=
  let index_seq (l : list PyVal) : Exn + PyVal :=
    match x with
    | PInt i =>
        match seq_index l i with
        | Some v => inr v
        | None => inl (mkExn IndexError [PStr "index out of range"])
        end
    | PBool b =>
        match seq_index l (bool_index b) with
        | Some v => inr v
        | None => inl (mkExn IndexError [PStr "index out of range"])
        end
    | _ => inl (mkExn TypeError [PStr "indices must be integers"])
    end in
  match value with
  | PDict d =>
      match x with
      | PStr k =>
          match assoc k d with
          | Some v => inr v
          | None => inl (mkExn KeyError [x])
          end
      | PNone | PBool _ | PInt _ | PTuple _ => inl (mkExn KeyError [x])
      | PList _ | PDict _ => inl (mkExn TypeError [PStr "unhashable type"])
      end
  | PList l => index_seq l
  | PTuple l => index_seq l
  | PStr s =>
      match x with
      | PInt i =>
          match string_get s i with
          | Some c => inr (PStr c)
          | None => inl (mkExn IndexError [PStr "index out of range"])
          end
      | PBool b =>
          match string_get s (bool_index b) with
          | Some c => inr (PStr c)
          | None => inl (mkExn IndexError [PStr "index out of range"])
          end
      | _ => inl (mkExn TypeError [PStr "indices must be integers"])
      end
  | PNone | PBool _ | PInt _ =>
      inl (mkExn TypeError [PStr "object is not subscriptable"])
  end.

(** [for x in v]: the elements the loop visits, or [TypeError]. *)
Definition py_iter (v : PyVal) : Exn + list PyVal :=
  match v with
  | PList l | PTuple l => inr l
  | PStr s => inr (map (fun c => PStr (String c "")) (list_ascii_of_string s))
  | PDict d => inr (map (fun kv => PStr (fst kv)) d)
  | PNone | PBool _ | PInt _ => inl (mkExn TypeError [PStr "object is not iterable"])
  end.

(** [len(v)] *)
Definition py_len (v : PyVal) : Exn + Z :=
  match v with
  | PList l | PTuple l => inr (Z.of_nat (List.length l))
  | PStr s => inr (Z.of_nat (String.length s))
  | PDict d => inr (Z.of_nat (List.length d))
  | PNone | PBool _ | PInt _ => inl (mkExn TypeError [PStr "object has no len()"])
  end.

(** [a + b] on strings, as used to build log messages and URLs. *)
Definition str_add (a : string) (b : PyVal) : Exn + string :=
  match b with
  | PStr s => inr (a ++ s)
  | _ => inl (mkExn TypeError [PStr "can't convert object to str implicitly"])
  end.

(** [error.args[0]] *)
Definition exn_arg0 (e : Exn) : Exn + PyVal :=
  match exn_args e with
  | a :: _ => inr a
  | [] => inl (mkExn IndexError [PStr "tuple index out of range"])
  end.

(* ------------------------------------------------------------------ *)
(** *** Integers as text *)

Definition decimal (z : Z) : string := NilZero.string_of_int (Z.to_int z).

(** Digits are walked from the least significant one; [k] counts the
    digits already placed in the current group of three. *)
Fixpoint comma_rev (ds : list ascii) (k : nat) : list ascii :=
  match ds with
  | [] => []
  | d :: rest =>
      if Nat.eqb k 3 then ","%char :: d :: comma_rev rest 1
      else d :: comma_rev rest (S k)
  end.

(** ["{:,d}".format(z)] *)
Definition format_comma (z : Z) : string :=
  let digits := list_ascii_of_string (decimal (Z.abs z)) in
  let grouped := string_of_list_ascii (rev (comma_rev (rev digits) 0)) in
  if z <? 0 then "-" ++ grouped else grouped.

(** [s[:n]] *)
Definition slice_to (s : string) (n : Z) : string :=
  let len := Z.of_nat (String.length s) in
  if 0 <=? n then substring 0 (Z.to_nat (Z.min n len)) s
  else substring 0 (Z.to_nat (Z.max 0 (len + n))) s.

(* ================================================================== *)
(** ** wrap_nicely *)

(** [s.split(' ')]: cut at every single space; never empty. *)
Fixpoint split_space (s : string) : list string :=
  match s with
  | EmptyString => [""]
  | String c rest =>
      if Ascii.eqb c " "%char then "" :: split_space rest
      else match split_space rest with
           | w :: ws => String c w :: ws
           | [] => [String c ""]
           end
  end.

(** [sep.join(parts)] *)
Fixpoint join (sep : string) (parts : list string) : string :=
  match parts with
  | [] => ""
  | [p] => p
  | p :: rest => p ++ sep ++ join sep rest
  end.

(** The body of the [for w in words] loop, on the pair
    [(the_lines, the_line)]. *)
Definition wrap_step (max_chars : Z) (acc : list string * string) (w : string)
  : list string * string :=
  let '(the_lines, the_line) := acc in
  if Z.of_nat (String.length (the_line ++ " " ++ w)) <=? max_chars
  then (the_lines, the_line ++ " " ++ w)
  else ((the_lines ++ [the_line])%list, w).

Definition wrap_nicely (text : string) (max_chars : Z) : list string :=
  let words := split_space text in
  let '(the_lines, the_line) := fold_left (wrap_step max_chars) words ([], "") in
  if truthy (PStr the_line) then (the_lines ++ [the_line])%list else the_lines.

(* ================================================================== *)
(** ** The device: scene, files, network *)

Definition Handle := nat.

(** Elements of the display scene.  Objects are compared by identity
    ([item == self._text[index]]), carried here as a number. *)
Inductive Drawable : Type :=
| Group (id : nat)
| Sprite (id : nat) (file : Handle)
| TextArea (id : nat) (text : string) (color : Z) (x y : Z).

Definition obj_id (d : Drawable) : nat :=
  match d with
  | Group id | Sprite id _ | TextArea id _ _ _ _ => id
  end.

Definition same_object (a b : Drawable) : bool := Nat.eqb (obj_id a) (obj_id b).

(** What the outside world sees of a run, in program order. *)
Inductive Event : Type :=
| EvPrint (args : list PyVal)                  (* print(...) *)
| EvNeo (r g b : Z)                            (* neopix.fill *)
| EvIsConnected                                (* _esp.is_connected *)
| EvConnect                                    (* _esp.connect(settings) *)
| EvGet (url : string) (stream : bool)         (* requests.get *)
| EvResponseClose                              (* r.close() *)
| EvOpen (filename mode : string) (h : Handle) (* open(filename, mode) *)
| EvRead (h : Handle)
| EvWrite (h : Handle) (data : string)
| EvClose (h : Handle)
| EvStat (filename : string)                   (* os.stat *)
| EvBgGroup (children : list Drawable)         (* _bg_group after a change *)
| EvRefresh                                    (* DISPLAY.refresh_soon() *)
| EvWaitFrame                                  (* DISPLAY.wait_for_frame() *)
| EvCallback (values : PyVal)                  (* _success_callback(values) *)
| EvReload.                                    (* supervisor.reload() *)

(** An HTTP response: buffered body, headers, and the chunks a streamed
    body delivers for a given chunk size (an [inl] item is an error
    raised by the transport at that point). *)
Record Response : Type := {
  resp_text : string;
  resp_headers : list (string * PyVal);
  resp_iter : Z -> list (Exn + string)
}.

(** The external collaborators.  Outcomes may depend on everything that
    happened before (the trace so far). *)
Record World : Type := {
  w_is_connected : list Event -> bool;
  w_connect : list Event -> option Exn;
  w_get : list Event -> string -> bool -> Exn + Response;
  w_open : list Event -> string -> string -> option Exn;
  w_read : list Event -> Handle -> Exn + string;
  w_write : list Event -> Handle -> string -> option Exn;
  w_stat_size : list Event -> string -> Exn + Z;
  w_bitmap : list Event -> Handle -> option Exn;  (* displayio.OnDiskBitmap *)
  w_json : string -> Exn + PyVal;                 (* JSON parse of a body *)
  w_search : PyVal -> string -> Exn + PyVal;      (* ure.search(re, text).group(1) *)
  w_int : string -> option Z;                     (* int(s) on a string *)
  w_repr : PyVal -> string;                       (* str() of a container *)
  w_callback : list Event -> PyVal -> option Exn;
  w_mem_free : list Event -> Z
}.

(** The attributes of a [PyPortal] that are fixed by the constructor. *)
Record Config : Type := {
  _debug : bool;
  _url : string;
  _json_path : PyVal;
  _regexp_path : PyVal;
  _image_json_path : PyVal;
  _default_bg : option string;
  neopix : bool;
  _uselocal : bool;
  _success_callback : bool;
  _text_font : bool;
  _text_color : list Z;
  _text_position : list (option (Z * Z));
  _text_wrap : list Z;
  _text_maxlen : list Z
}.

(** The attributes that change.  [_text] is the list of text slots; the
    empty list stands for [None] (both are falsy). *)
Record State : Type := {
  splash : list Drawable;          (* children of self.splash, bottom first *)
  _bg_group : list Drawable;       (* children of self._bg_group *)
  _bg_file : option Handle;
  _text : list (option Drawable);
  next_obj : nat;                  (* next fresh object identity *)
  trace : list Event
}.

Definition set_splash (v : list Drawable) (s : State) : State :=
  {| splash := v; _bg_group := _bg_group s; _bg_file := _bg_file s;
     _text := _text s; next_obj := next_obj s; trace := trace s |}.
Definition set_bg_group (v : list Drawable) (s : State) : State :=
  {| splash := splash s; _bg_group := v; _bg_file := _bg_file s;
     _text := _text s; next_obj := next_obj s; trace := trace s |}.
Definition set_bg_file (v : option Handle) (s : State) : State :=
  {| splash := splash s; _bg_group := _bg_group s; _bg_file := v;
     _text := _text s; next_obj := next_obj s; trace := trace s |}.
Definition set_text_slots (v : list (option Drawable)) (s : State) : State :=
  {| splash := splash s; _bg_group := _bg_group s; _bg_file := _bg_file s;
     _text := v; next_obj := next_obj s; trace := trace s |}.
Definition set_next_obj (v : nat) (s : State) : State :=
  {| splash := splash s; _bg_group := _bg_group s; _bg_file := _bg_file s;
     _text := _text s; next_obj := v; trace := trace s |}.
Definition set_trace (v : list Event) (s : State) : State :=
  {| splash := splash s; _bg_group := _bg_group s; _bg_file := _bg_file s;
     _text := _text s; next_obj := next_obj s; trace := v |}.

(* ------------------------------------------------------------------ *)
(** *** The monad of methods *)

Inductive Result (A : Type) : Type :=
| Ok (a : A)
| Raise (e : Exn)
| OutOfFuel.
Arguments Ok {A} a.
Arguments Raise {A} e.
Arguments OutOfFuel {A}.

Definition M (A : Type) : Type := State -> Result A * State.

Definition ret {A : Type} (a : A) : M A := fun s => (Ok a, s).

Definition bind {A B : Type} (m : M A) (k : A -> M B) : M B :=
  fun s =>
    match m s with
    | (Ok a, s') => k a s'
    | (Raise e, s') => (Raise e, s')
    | (OutOfFuel, s') => (OutOfFuel, s')
    end.

Definition raise {A : Type} (e : Exn) : M A := fun s => (Raise e, s).

Declare Scope py_scope.
Delimit Scope py_scope with py.
Notation "x <- m ;; k" := (bind m (fun x => k))
  (at level 61, m at next level, right associativity) : py_scope.
Notation "m ;; k" := (bind m (fun _ => k))
  (at level 61, right associativity) : py_scope.
Open Scope py_scope.

(** An outcome computed outside the state. *)
Definition lift {A : Type} (r : Exn + A) : M A :=
  match r with
  | inl e => raise e
  | inr a => ret a
  end.

Definition lift_opt (r : option Exn) : M unit :=
  match r with
  | Some e => raise e
  | None => ret tt
  end.

(** [try: body  except <catches>: handler] *)
Definition try_except {A : Type} (body : M A) (catches : Exn -> bool)
  (handler : Exn -> M A) : M A :=
  fun s =>
    match body s with
    | (Raise e, s') => if catches e then handler e s' else (Raise e, s')
    | r => r
    end.

Definition is_kind (k : ExnKind) (e : Exn) : bool := ExnKind_eqb (exn_kind e) k.

Definition when (b : bool) (m : M unit) : M unit := if b then m else ret tt.

Definition get_state : M State := fun s => (Ok s, s).
Definition modify (f : State -> State) : M unit := fun s => (Ok tt, f s).

Definition emit (e : Event) : M unit :=
  modify (fun s => set_trace (trace s ++ [e])%list s).

(** Ask an oracle, given the trace so far. *)
Definition ask {A : Type} (q : list Event -> A) : M A :=
  fun s => (Ok (q (trace s)), s).

Definition fresh : M nat :=
  fun s => (Ok (next_obj s), set_next_obj (S (next_obj s)) s).

Definition print (args : list PyVal) : M unit := emit (EvPrint args).

Definition gc_collect : M unit := ret tt.

Definition lookup {A : Type} (l : list A) (i : nat) : M A :=
  match nth_error l i with
  | Some a => ret a
  | None => raise (mkExn IndexError [PStr "list index out of range"])
  end.

Fixpoint replace_nth {A : Type} (l : list A) (i : nat) (v : A) : list A :=
  match l, i with
  | [], _ => []
  | _ :: rest, O => v :: rest
  | a :: rest, S j => a :: replace_nth rest j v
  end.

Definition opt_path (f : option string) : PyVal :=
  match f with
  | Some n => PStr n
  | None => PNone
  end.

Definition IMAGE_CONVERTER_SERVICE : string :=
  "http://res.cloudinary.com/schmarty/image/fetch/w_320,h_240,c_fill,f_bmp/".
Definition LOCALFILE : string := "local.txt".
Definition SPLASH_MAX_SIZE : nat := 5.    (* displayio.Group(max_size=5) *)
Definition BG_MAX_SIZE : nat := 1.        (* displayio.Group(max_size=1) *)

(* ================================================================== *)
(** ** The methods of PyPortal *)

Section PyPortal.

Variable W : World.
Variable cfg : Config.

(** [str(val)] *)
Definition py_str (val : PyVal) : string :=
  match val with
  | PStr s => s
  | PInt z => decimal z
  | PNone => "None"
  | PBool true => "True"
  | PBool false => "False"
  | PList _ | PTuple _ | PDict _ => w_repr W val
  end.

(** [int(val)] *)
Definition py_int (val : PyVal) : Exn + Z :=
  match val with
  | PInt z => inr z
  | PBool b => inr (bool_index b)
  | PStr s =>
      match w_int W s with
      | Some z => inr z
      | None => inl (mkExn ValueError [PStr "invalid syntax for integer"])
      end
  | PNone | PList _ | PTuple _ | PDict _ =>
      inl (mkExn TypeError [PStr "can't convert to int"])
  end.

(* ------------------------------------------------------------------ *)
(** *** Files and groups *)

Definition file_open (filename mode : string) : M Handle :=
  h <- fresh ;;
  r <- ask (fun tr => w_open W tr filename mode) ;;
  lift_opt r ;;
  emit (EvOpen filename mode h) ;;
  ret h.

Definition file_close (h : Handle) : M unit := emit (EvClose h).

(** [with open(filename, mode) as file: body]: the file is closed on the
    way out, whatever the body did. *)
Definition with_open {A : Type} (filename mode : string) (body : Handle -> M A) : M A :=
  h <- file_open filename mode ;;
  fun s =>
    let '(r, s1) := body h s in
    let '(_, s2) := file_close h s1 in
    (r, s2).

(** [group.pop()] on a list of children: the last one, if any. *)
Definition list_pop {A : Type} (l : list A) : option (list A * A) :=
  match rev l with
  | [] => None
  | x :: r => Some (rev r, x)
  end.

Definition bg_group_pop : M Drawable :=
  s <- get_state ;;
  match list_pop (_bg_group s) with
  | None => raise (mkExn IndexError [PStr "pop from empty list"])
  | Some (rest, x) =>
      modify (set_bg_group rest) ;;
      emit (EvBgGroup rest) ;;
      ret x
  end.

Definition bg_group_append (d : Drawable) : M unit :=
  s <- get_state ;;
  if Nat.leb BG_MAX_SIZE (List.length (_bg_group s))
  then raise (mkExn RuntimeError [PStr "Group full"])
  else
    modify (set_bg_group (_bg_group s ++ [d])%list) ;;
    emit (EvBgGroup (_bg_group s ++ [d])%list).

Definition splash_append (d : Drawable) : M unit :=
  s <- get_state ;;
  if Nat.leb SPLASH_MAX_SIZE (List.length (splash s))
  then raise (mkExn RuntimeError [PStr "Group full"])
  else modify (set_splash (splash s ++ [d])%list).

(* ------------------------------------------------------------------ *)
(** *** neo_status, set_background *)

Definition neo_status (r g b : Z) : M unit :=
  when (neopix cfg) (emit (EvNeo r g b)).

Definition set_background (filename : option string) : M unit :=
  print [PStr "Set background to "; opt_path filename] ;;
  try_except (bg_group_pop ;; ret tt) (is_kind IndexError) (fun _ => ret tt) ;;
  if negb (truthy (opt_path filename)) then ret tt   (* no background desired *)
  else
    let name := match filename with Some n => n | None => "" end in
    s <- get_state ;;
    match _bg_file s with
    | Some old => file_close old
    | None => ret tt
    end ;;
    h <- file_open name "rb" ;;
    modify (set_bg_file (Some h)) ;;
    bad <- ask (fun tr => w_bitmap W tr h) ;;
    lift_opt bad ;;
    id <- fresh ;;
    bg_group_append (Sprite id h) ;;
    emit EvRefresh ;;
    gc_collect ;;
    emit EvWaitFrame.

(* ------------------------------------------------------------------ *)
(** *** set_text *)

(** The [while len(self.splash)] loop, on the scene listed top first:
    pop until the old text area is met; the popped items are collected in
    the order they were popped.  Returns what is left (top first) and
    [items]. *)
Fixpoint pop_until (old : Drawable) (top_first : list Drawable) (items : list Drawable)
  : list Drawable * list Drawable :=
  match top_first with
  | [] => ([], items)
  | item :: rest =>
      if same_object item old then (rest, items)
      else pop_until old rest (items ++ [item])%list
  end.

(** [for g in items: self.splash.append(g)] *)
Fixpoint append_all (items : list Drawable) : M unit :=
  match items with
  | [] => ret tt
  | g :: rest => splash_append g ;; append_all rest
  end.

(** [self._text[index] = TextArea(...)] followed by the assignments of
    color, x and y. *)
Definition make_text_area (text : string) (index : nat) : M Drawable :=
  id <- fresh ;;
  modify (fun s => set_text_slots (replace_nth (_text s) index (Some (TextArea id text 0 0 0))) s) ;;
  color <- lookup (_text_color cfg) index ;;
  pos <- lookup (_text_position cfg) index ;;
  match pos with
  | None => raise (mkExn TypeError [PStr "object is not subscriptable"])
  | Some (x, y) =>
      let t := TextArea id text color x y in
      modify (fun s => set_text_slots (replace_nth (_text s) index (Some t)) s) ;;
      ret t
  end.

(** A slot holds [None] or the text area last made for it; in the test
    [if self._text[index]] a text area counts as true. *)
Definition set_text (val : PyVal) (index : nat) : M unit :=
  if _text_font cfg then
    let text := py_str val in
    maxlen <- lookup (_text_maxlen cfg) index ;;
    let text := if negb (maxlen =? 0) then slice_to text maxlen else text in
    s <- get_state ;;
    slot <- lookup (_text s) index ;;
    match slot with
    | Some old =>
        let '(rest, items) := pop_until old (rev (splash s)) [] in
        modify (set_splash (rev rest)) ;;
        t <- make_text_area text index ;;
        splash_append t ;;
        append_all items
    | None =>
        pos <- lookup (_text_position cfg) index ;;
        match pos with
        | Some _ =>
            print [PStr "Making text area with string:"; PStr text] ;;
            t <- make_text_area text index ;;
            splash_append t
        | None => ret tt
        end
    end
  else ret tt.

(* ------------------------------------------------------------------ *)
(** *** _json_traverse *)

Fixpoint traverse_keys (value : PyVal) (keys : list PyVal) : Exn + PyVal :=
  match keys with
  | [] => inr value
  | x :: rest =>
      match getitem value x with
      | inl e => inl e
      | inr v => traverse_keys v rest
      end
  end.

Definition _json_traverse (json path : PyVal) : Exn + PyVal :=
  match py_iter path with
  | inl e => inl e
  | inr keys => traverse_keys json keys
  end.

(* ------------------------------------------------------------------ *)
(** *** wget *)

Definition requests_get (url : string) (stream : bool) : M Response :=
  emit (EvGet url stream) ;;
  r <- ask (fun tr => w_get W tr url stream) ;;
  lift r.

(** The [for i in r.iter_content(...)] loop over the chunks the transport
    delivers. *)
Fixpoint wget_chunks (file : Handle) (content_length : Z)
  (chunks : list (Exn + string)) (remaining : Z) : M unit :=
  match chunks with
  | [] => ret tt
  | inl e :: _ => raise e
  | inr i :: rest =>
      neo_status 0 100 100 ;;
      let remaining := remaining - Z.of_nat (String.length i) in
      emit (EvWrite file i) ;;
      bad <- ask (fun tr => w_write W tr file i) ;;
      lift_opt bad ;;
      (if _debug cfg
       then print [PStr ("Read " ++ decimal (content_length - remaining) ++ " bytes, "
                         ++ decimal remaining ++ " remaining")]
       else print [PStr "."]) ;;
      if remaining =? 0 then ret tt
      else neo_status 100 100 0 ;; wget_chunks file content_length rest remaining
  end.

(** The elapsed time printed at the end is not modelled. *)
Definition wget (url filename : string) : M unit :=
  print [PStr "Fetching stream from"; PStr url] ;;
  neo_status 100 100 0 ;;
  r <- requests_get url true ;;
  when (_debug cfg) (print [PDict (resp_headers r)]) ;;
  cl <- lift (getitem (PDict (resp_headers r)) (PStr "content-length")) ;;
  content_length <- lift (py_int cl) ;;
  print [PStr "Saving data to "; PStr filename] ;;
  with_open filename "wb" (fun file =>
    wget_chunks file content_length
      (resp_iter r (Z.min content_length 12000)) content_length) ;;
  emit EvResponseClose ;;
  emit (EvStat filename) ;;
  size <- ask (fun tr => w_stat_size W tr filename) ;;
  size <- lift size ;;
  print [PStr ("Created file of " ++ decimal size ++ " bytes")] ;;
  neo_status 0 0 0.

(* ------------------------------------------------------------------ *)
(** *** _connect_esp *)

(** [while not self._esp.is_connected: ...]; the loop has no bound of its
    own, so the model runs it for at most [fuel] polls. *)
Fixpoint connect_loop (fuel : nat) : M unit :=
  match fuel with
  | O => fun s => (OutOfFuel, s)
  | S fuel' =>
      emit EvIsConnected ;;
      connected <- ask (w_is_connected W) ;;
      if connected then ret tt
      else
        when (_debug cfg) (print [PStr "Connecting to AP"]) ;;
        neo_status 100 0 0 ;;
        emit EvConnect ;;
        bad <- ask (w_connect W) ;;
        lift_opt bad ;;
        connect_loop fuel'
  end.

Definition _connect_esp (fuel : nat) : M unit :=
  neo_status 0 0 100 ;;
  connect_loop fuel.

(* ------------------------------------------------------------------ *)
(** *** fetch *)

(** [Fake_Requests(filename)]: the response is the text of a local file. *)
Definition Fake_Requests (filename : string) : M Response :=
  text <- with_open filename "r" (fun file =>
            emit (EvRead file) ;;
            t <- ask (fun tr => w_read W tr file) ;;
            lift t) ;;
  ret {| resp_text := text; resp_headers := []; resp_iter := fun _ => [] |}.

(** Lines 526-540: the response, from the local file or from the
    network. *)
Definition get_response (fuel : nat) : M Response :=
  r <- (if _uselocal cfg
        then print [PStr "*** USING LOCALFILE FOR DATA - NOT INTERNET!!! ***"] ;;
             r <- Fake_Requests LOCALFILE ;;
             ret (Some r)
        else ret None) ;;
  match r with
  | Some r => ret r
  | None =>
      _connect_esp fuel ;;
      print [PStr "Retrieving data..."] ;;
      neo_status 100 100 0 ;;
      gc_collect ;;
      r <- requests_get (_url cfg) false ;;
      gc_collect ;;
      neo_status 0 0 100 ;;
      print [PStr "Reply is OK!"] ;;
      ret r
  end.

(** Lines 545-554: [json_out], or [None] when no path is configured. *)
Definition parse_json (r : Response) : M PyVal :=
  if truthy (_image_json_path cfg) || truthy (_json_path cfg) then
    try_except
      (gc_collect ;;
       json_out <- lift (w_json W (resp_text r)) ;;
       gc_collect ;;
       ret json_out)
      (fun e => is_kind ValueError e || is_kind MemoryError e)
      (fun e =>
         if is_kind ValueError e
         then print [PStr "Couldn't parse json: "; PStr (resp_text r)] ;; raise e
         else emit EvReload ;; raise (mkExn ReloadException []))
  else ret PNone.

Fixpoint traverse_all (json_out : PyVal) (paths : list PyVal) : Exn + list PyVal :=
  match paths with
  | [] => inr []
  | path :: rest =>
      match _json_traverse json_out path with
      | inl e => inl e
      | inr v =>
          match traverse_all json_out rest with
          | inl e => inl e
          | inr vs => inr (v :: vs)
          end
      end
  end.

Fixpoint search_all (regexps : list PyVal) (text : string) : Exn + list PyVal :=
  match regexps with
  | [] => inr []
  | regexp :: rest =>
      match w_search W regexp text with
      | inl e => inl e
      | inr v =>
          match search_all rest text with
          | inl e => inl e
          | inr vs => inr (v :: vs)
          end
      end
  end.

(** Lines 560-567: [values]. *)
Definition extract_values (r : Response) (json_out : PyVal) : M PyVal :=
  if truthy (_json_path cfg) then
    paths <- lift (py_iter (_json_path cfg)) ;;
    vs <- lift (traverse_all json_out paths) ;;
    ret (PList vs)
  else if truthy (_regexp_path cfg) then
    regexps <- lift (py_iter (_regexp_path cfg)) ;;
    vs <- lift (search_all regexps (resp_text r)) ;;
    ret (PList vs)
  else ret (PStr (resp_text r)).

(** Lines 569-574: [image_url], [None] when not configured or not found. *)
Definition extract_image_url (json_out : PyVal) : M PyVal :=
  if truthy (_image_json_path cfg) then
    try_except
      (lift (_json_traverse json_out (_image_json_path cfg)))
      (is_kind KeyError)
      (fun error =>
         a <- lift (exn_arg0 error) ;;
         m <- lift (str_add "Error finding image data. '" a) ;;
         print [PStr (m ++ "' not found.")] ;;
         set_background (_default_bg cfg) ;;
         ret PNone)
  else ret PNone.

(** The body of the [try] at lines 583-589. *)
Definition image_body (image_url : PyVal) : M unit :=
  print [PStr "original URL:"; image_url] ;;
  u <- lift (str_add IMAGE_CONVERTER_SERVICE image_url) ;;
  print [PStr "convert URL:"; PStr u] ;;
  wget u "/cache.bmp" ;;
  set_background (Some "/cache.bmp").

(** Lines 581-595. *)
Definition fetch_image (image_url : PyVal) : M unit :=
  if truthy image_url then
    try_except
      (image_body image_url)
      (is_kind ValueError)
      (fun error =>
         a <- lift (exn_arg0 error) ;;
         m <- lift (str_add "Error displaying cached image. " a) ;;
         print [PStr m] ;;
         set_background (_default_bg cfg))
  else ret tt.

(** Lines 598-599.  The callback is an observer: it sees [values] and may
    raise. *)
Definition run_callback (values : PyVal) : M unit :=
  when (_success_callback cfg)
    (emit (EvCallback values) ;;
     bad <- ask (fun tr => w_callback W tr values) ;;
     lift_opt bad).

Definition newline : string := String (ascii_of_nat 10) "".

(** One round of the loop at lines 603-615. *)
Definition render_slot (values : PyVal) (i : nat) : M unit :=
  text <- try_except
            (v <- lift (getitem values (PInt (Z.of_nat i))) ;;
             n <- lift (py_int v) ;;
             ret (PStr (format_comma n)))
            (fun e => is_kind TypeError e || is_kind ValueError e)
            (fun _ => lift (getitem values (PInt (Z.of_nat i)))) ;;
  when (_debug cfg) (print [PStr "Drawing text"; text]) ;;
  wrap <- lookup (_text_wrap cfg) i ;;
  text <- (if negb (wrap =? 0) then
             when (_debug cfg) (print [PStr "Wrapping text"]) ;;
             match text with
             | PStr t => ret (PStr (join newline (wrap_nicely t wrap)))
             | _ => raise (mkExn AttributeError [PStr "object has no attribute 'split'"])
             end
           else ret text) ;;
  set_text text i.

Fixpoint render_slots (values : PyVal) (indices : list nat) : M unit :=
  match indices with
  | [] => ret tt
  | i :: rest => render_slot values i ;; render_slots values rest
  end.

(** Lines 602-615. *)
Definition render_text (values : PyVal) : M unit :=
  s <- get_state ;;
  let n := List.length (_text s) in
  if negb (Nat.eqb n 0) then render_slots values (seq 0 n) else ret tt.

(** Lines 616-618. *)
Definition return_values (values : PyVal) : M PyVal :=
  n <- lift (py_len values) ;;
  if n =? 1 then lift (getitem values (PInt 0)) else ret values.

(** Lines 518-540: up to the response. *)
Definition fetch_begin (fuel : nat) : M Response :=
  gc_collect ;;
  when (_debug cfg)
    (free <- ask (w_mem_free W) ;; print [PStr "Free mem: "; PInt free]) ;;
  get_response fuel.

(** Lines 542-579: parse and extract; yields [(values, image_url)]. *)
Definition extract (r : Response) : M (PyVal * PyVal) :=
  when (_debug cfg) (print [PStr (resp_text r)]) ;;
  json_out <- parse_json r ;;
  values <- extract_values r json_out ;;
  image_url <- extract_image_url json_out ;;
  gc_collect ;;
  ret (values, image_url).

(** Lines 597-618: callback, text slots, result. *)
Definition finish (values : PyVal) : M PyVal :=
  run_callback values ;;
  render_text values ;;
  return_values values.

Definition fetch (fuel : nat) : M PyVal :=
  r <- fetch_begin fuel ;;
  p <- extract r ;;
  fetch_image (snd p) ;;
  finish (fst p).

(** A caller's sequence of [set_background] calls; an exception of one
    call does not prevent the next. *)
Fixpoint set_backgrounds (filenames : list (option string)) (s : State) : State :=
  match filenames with
  | [] => s
  | f :: rest => set_backgrounds rest (snd (set_background f s))
  end.

End PyPortal.

(* ------------------------------------------------------------------ *)
(** *** The constructor's treatment of [json_path] (lines 145-151) *)

Definition init_json_path (json_path : PyVal) : Exn + PyVal :=
  if truthy json_path then
    match getitem json_path (PInt 0) with
    | inl e => inl e
    | inr first =>
        if is_list_or_tuple first then inr json_path
        else inr (PTuple [json_path])
    end
  else inr PNone.

(* ------------------------------------------------------------------ *)
(** *** The constructor's text slots (lines 219-254) *)

(** What the constructor stores for the text slots. *)
Record TextSlots : Type := {
  ts_text : list PyVal;        (* self._text *)
  ts_color : list PyVal;       (* self._text_color *)
  ts_position : list PyVal;    (* self._text_position *)
  ts_wrap : list PyVal;        (* self._text_wrap *)
  ts_maxlen : list PyVal       (* self._text_maxlen *)
}.

Definition and_then {A B : Type} (r : Exn + A) (k : A -> Exn + B) : Exn + B :=
  match r with
  | inl e => inl e
  | inr a => k a
  end.

(** The body of [for i in range(num)] at lines 244-251. *)
Definition fill_slot (text_color text_position text_wrap text_maxlen : PyVal)
  (slots : TextSlots) (i : nat) : Exn + TextSlots :=
  let idx := PInt (Z.of_nat i) in
  let text := replace_nth (ts_text slots) i PNone in
  and_then (getitem text_color idx) (fun c =>
  and_then (getitem text_position idx) (fun p =>
  and_then (getitem text_wrap idx) (fun w =>
  and_then (getitem text_maxlen idx) (fun m =>
    inr {| ts_text := text;
           ts_color := replace_nth (ts_color slots) i c;
           ts_position := replace_nth (ts_position slots) i p;
           ts_wrap := replace_nth (ts_wrap slots) i w;
           ts_maxlen := replace_nth (ts_maxlen slots) i m |})))).

Fixpoint fill_slots (text_color text_position text_wrap text_maxlen : PyVal)
  (indices : list nat) (slots : TextSlots) : Exn + TextSlots :=
  match indices with
  | [] => inr slots
  | i :: rest =>
      and_then (fill_slot text_color text_position text_wrap text_maxlen slots i)
        (fill_slots text_color text_position text_wrap text_maxlen rest)
  end.

(** Lines 219-254, once the font is loaded: [None] without a font,
    otherwise the five lists of the slots. *)
Definition init_text (text_font : bool)
  (text_position text_color text_wrap text_maxlen : PyVal) : Exn + option TextSlots :=
  if text_font then
    and_then (getitem text_position (PInt 0)) (fun first =>
    and_then
      (if is_list_or_tuple first then
         and_then (py_len text_position) (fun n =>
           let num := Z.to_nat n in
           let zeros := PList (repeat (PInt 0) num) in
           let text_wrap := if negb (truthy text_wrap) then zeros else text_wrap in
           let text_maxlen := if negb (truthy text_maxlen) then zeros else text_maxlen in
           inr (num, text_position, text_color, text_wrap, text_maxlen))
       else
         inr (1%nat, PTuple [text_position], PTuple [text_color],
              PTuple [text_wrap], PTuple [text_maxlen]))
      (fun '(num, text_position, text_color, text_wrap, text_maxlen) =>
         let nones := repeat PNone num in
         and_then
           (fill_slots text_color text_position text_wrap text_maxlen (seq 0 num)
              {| ts_text := nones; ts_color := nones; ts_position := nones;
                 ts_wrap := nones; ts_maxlen := nones |})
           (fun slots => inr (Some slots))))
  else inr None.

(* ------------------------------------------------------------------ *)
(** *** show_QR: the raster (lines 642-678) *)

(** [range(n)] *)
Definition range (n : Z) : list Z := map Z.of_nat (seq 0 (Z.to_nat n)).

(** [line[i] |= v] on a bytearray. *)
Definition bytearray_or (line : list Z) (i v : Z) : Exn + list Z :=
  let n := Z.of_nat (List.length line) in
  let j := if i <? 0 then n + i else i in
  if (0 <=? j) && (j <? n) then
    let b := Z.lor (nth (Z.to_nat j) line 0) v in
    if (0 <=? b) && (b <? 256) then inr (replace_nth line (Z.to_nat j) b)
    else inl (mkExn ValueError [PStr "byte must be in range(0, 256)"])
  else inl (mkExn IndexError [PStr "bytearray index out of range"]).

(** [for b in range(BLOCK_SIZE)]: the pixels of one module of the code. *)
Fixpoint qr_block (line : list Z) (X_OFFSET BLOCK_SIZE x : Z) (bs : list Z)
  : Exn + list Z :=
  match bs with
  | [] => inr line
  | b :: rest =>
      let _x := X_OFFSET + x * BLOCK_SIZE + b in
      and_then (bytearray_or line (_x / 8) (Z.shiftl 1 (7 - _x mod 8)))
        (fun line' => qr_block line' X_OFFSET BLOCK_SIZE x rest)
  end.

(** [for x in range(qrcode.matrix.width)]: one scan line. *)
Fixpoint qr_row (matrix : Z -> Z -> bool) (y : Z) (line : list Z)
  (X_OFFSET BLOCK_SIZE : Z) (xs : list Z) : Exn + list Z :=
  match xs with
  | [] => inr line
  | x :: rest =>
      if matrix x y then
        and_then (qr_block line X_OFFSET BLOCK_SIZE x (range BLOCK_SIZE))
          (fun line' => qr_row matrix y line' X_OFFSET BLOCK_SIZE rest)
      else qr_row matrix y line X_OFFSET BLOCK_SIZE rest
  end.

Definition QR_BLOCK_SIZE (qr_size width : Z) : Z := qr_size / (width + 4).
Definition QR_X_OFFSET (qr_size width : Z) : Z :=
  (qr_size - QR_BLOCK_SIZE qr_size width * width) / 2.
Definition QR_Y_OFFSET (qr_size width height : Z) : Z :=
  (qr_size - QR_BLOCK_SIZE qr_size width * height) / 2.

(** The scan line of row [y] of the code: a cleared line of
    [qr_size // 8] bytes, then the dark modules. *)
Definition qr_line (qr_size width : Z) (matrix : Z -> Z -> bool) (y : Z)
  : Exn + list Z :=
  qr_row matrix y (repeat 0 (Z.to_nat (qr_size / 8)))
    (QR_X_OFFSET qr_size width) (QR_BLOCK_SIZE qr_size width) (range width).

(** [for y in range(height)]: the rows handed to [_load_row], each with
    its row number. *)
Fixpoint qr_rows (qr_size width height : Z) (matrix : Z -> Z -> bool)
  (ys : list Z) : Exn + list (Z * list Z) :=
  match ys with
  | [] => inr []
  | y :: rest =>
      and_then (qr_line qr_size width matrix y) (fun line =>
      and_then (qr_rows qr_size width height matrix rest) (fun more =>
        inr (map (fun b => (QR_Y_OFFSET qr_size width height
                            + y * QR_BLOCK_SIZE qr_size width + b, line))
               (range (QR_BLOCK_SIZE qr_size width)) ++ more)%list))
  end.

(** Lines 642-678: the size check, then every row loaded into the
    bitmap. *)
Definition qr_raster (qr_size width height : Z) (matrix : Z -> Z -> bool)
  : Exn + list (Z * list Z) :=
  if negb (qr_size mod 32 =? 0)
  then inl (mkExn RuntimeError [PStr "QR size must be divisible by 32"])
  else qr_rows qr_size width height matrix (range height).

(* ------------------------------------------------------------------ *)
(** *** get_local_time *)

Definition TIME_SERVICE_IPADDR : string := "http://worldtimeapi.org/api/ip".
Definition TIME_SERVICE_LOCATION : string := "http://worldtimeapi.org/api/timezone/".

(** [s.split(c)] for a one-character separator. *)
Fixpoint split_on (c : ascii) (s : string) : list string :=
  match s with
  | EmptyString => [""]
  | String a rest =>
      if Ascii.eqb a c then "" :: split_on c rest
      else match split_on c rest with
           | w :: ws => String a w :: ws
           | [] => [String a ""]
           end
  end.

(** [a, b, c = values] *)
Definition unpack3 (values : list Z) : Exn + (Z * Z * Z) :=
  match values with
  | [a; b; c] => inr (a, b, c)
  | _ => inl (mkExn ValueError [PStr "wrong number of values to unpack"])
  end.

Section Time.

Variable W : World.
Variable cfg : Config.

(** [[int(x) for x in parts]] *)
Fixpoint ints_of (parts : list string) : Exn + list Z :=
  match parts with
  | [] => inr []
  | x :: rest =>
      and_then (py_int W (PStr x)) (fun n =>
      and_then (ints_of rest) (fun ns => inr (n :: ns)))
  end.

(** Lines 451-461: the [struct_time] built from the reply. *)
Definition struct_time_of (time_json : PyVal) : Exn + PyVal :=
  and_then (getitem time_json (PStr "datetime")) (fun current_time =>
  and_then (getitem time_json (PStr "day_of_year")) (fun year_day =>
  and_then (getitem time_json (PStr "day_of_week")) (fun week_day =>
  and_then (getitem time_json (PStr "dst")) (fun is_dst =>
  match current_time with
  | PStr current_time =>
      match split_on "T" current_time with
      | [the_date; the_time] =>
          and_then (ints_of (split_on "-" the_date)) (fun date =>
          and_then (unpack3 date) (fun '(year, month, mday) =>
          let the_time := hd "" (split_on "." the_time) in
          and_then (ints_of (split_on ":" the_time)) (fun time =>
          and_then (unpack3 time) (fun '(hours, minutes, seconds) =>
            inr (PTuple [PInt year; PInt month; PInt mday; PInt hours;
                         PInt minutes; PInt seconds; week_day; year_day;
                         is_dst])))))
      | _ => inl (mkExn ValueError [PStr "wrong number of values to unpack"])
      end
  | _ => inl (mkExn AttributeError [PStr "object has no attribute 'split'"])
  end)))).

(** The value assigned to [rtc.RTC().datetime] is the result. *)
Definition get_local_time (fuel : nat) (location : option string) : M PyVal :=
  _connect_esp W cfg fuel ;;
  let api_url :=
    match location with
    | Some l => if negb (truthy (PStr l)) then TIME_SERVICE_IPADDR
                else TIME_SERVICE_LOCATION ++ l
    | None => TIME_SERVICE_IPADDR
    end in
  response <- requests_get W api_url false ;;
  time_json <- lift (w_json W (resp_text response)) ;;
  now <- lift (struct_time_of time_json) ;;
  print [now] ;;
  emit EvResponseClose ;;
  gc_collect ;;
  ret now.

End Time.

(* ================================================================== *)
(** ** Concrete devices and configurations *)

Module Scenario.

(** A decimal reading of [int(s)]: an optional minus sign and digits. *)
Fixpoint digits_value (cs : list ascii) (acc : Z) : option Z :=
  match cs with
  | [] => Some acc
  | c :: rest =>
      let n := Z.of_nat (nat_of_ascii c) in
      if (48 <=? n) && (n <=? 57) then digits_value rest (10 * acc + (n - 48))
      else None
  end.

Definition int_of_string (s : string) : option Z :=
  match list_ascii_of_string s with
  | [] => None
  | c :: rest =>
      if Ascii.eqb c "-"%char then
        match rest with
        | [] => None
        | _ => option_map Z.opp (digits_value rest 0)
        end
      else digits_value (c :: rest) 0
  end.

Definition body : string := "{...}".
Definition photo : string := "http://host/pic.jpg".

(** A response with a buffered body and, when streamed, one chunk of
    four bytes announced by its content-length header. *)
Definition reply (text : string) : Response :=
  {| resp_text := text;
     resp_headers := [("content-length", PStr "4")];
     resp_iter := fun _ => [inr "BM00"] |}.

(** A device on which everything works: the access point is reachable,
    every request is answered with [body], files open and the body parses
    to [doc]. *)
Definition world (doc : Exn + PyVal) : World :=
  {| w_is_connected := fun _ => true;
     w_connect := fun _ => None;
     w_get := fun _ _ _ => inr (reply body);
     w_open := fun _ _ _ => None;
     w_read := fun _ _ => inr body;
     w_write := fun _ _ _ => None;
     w_stat_size := fun _ _ => inr 4;
     w_bitmap := fun _ _ => None;
     w_json := fun _ => doc;
     w_search := fun _ _ => inl (mkExn AttributeError [PStr "no match"]);
     w_int := int_of_string;
     w_repr := fun _ => "<object>";
     w_callback := fun _ _ => None;
     w_mem_free := fun _ => 0 |}.

(** The same device, except that a streamed request fails with [e]. *)
Definition world_stream_fails (doc : Exn + PyVal) (e : Exn) : World :=
  {| w_is_connected := fun _ => true;
     w_connect := fun _ => None;
     w_get := fun _ _ stream => if stream then inl e else inr (reply body);
     w_open := fun _ _ _ => None;
     w_read := fun _ _ => inr body;
     w_write := fun _ _ _ => None;
     w_stat_size := fun _ _ => inr 4;
     w_bitmap := fun _ _ => None;
     w_json := fun _ => doc;
     w_search := fun _ _ => inl (mkExn AttributeError [PStr "no match"]);
     w_int := int_of_string;
     w_repr := fun _ => "<object>";
     w_callback := fun _ _ => None;
     w_mem_free := fun _ => 0 |}.

(** The same device, except that the file read back from the cache does
    not decode as a bitmap. *)
Definition world_bad_bitmap (doc : Exn + PyVal) (e : Exn) : World :=
  {| w_is_connected := fun _ => true;
     w_connect := fun _ => None;
     w_get := fun _ _ _ => inr (reply body);
     w_open := fun _ _ _ => None;
     w_read := fun _ _ => inr body;
     w_write := fun _ _ _ => None;
     w_stat_size := fun _ _ => inr 4;
     w_bitmap := fun tr h =>
       if existsb (fun ev => match ev with
                             | EvOpen "/cache.bmp" "rb" h' => Nat.eqb h h'
                             | _ => false
                             end) tr
       then Some e else None;
     w_json := fun _ => doc;
     w_search := fun _ _ => inl (mkExn AttributeError [PStr "no match"]);
     w_int := int_of_string;
     w_repr := fun _ => "<object>";
     w_callback := fun _ _ => None;
     w_mem_free := fun _ => 0 |}.

(** One value path, one image path, one text slot, a callback and a
    default background. *)
Definition config (local : bool) (image_path : PyVal) : Config :=
  {| _debug := false;
     _url := "http://host/data.json";
     _json_path := PTuple [PList [PStr "title"]];
     _regexp_path := PNone;
     _image_json_path := image_path;
     _default_bg := Some "/default.bmp";
     neopix := false;
     _uselocal := local;
     _success_callback := true;
     _text_font := true;
     _text_color := [8421504];
     _text_position := [Some (10, 20)];
     _text_wrap := [0];
     _text_maxlen := [0] |}.

(** Three text slots, no wrapping. *)
Definition config3 : Config :=
  {| _debug := false;
     _url := "http://host/data.json";
     _json_path := PTuple [PList [PStr "a"]; PList [PStr "b"]; PList [PStr "c"]];
     _regexp_path := PNone;
     _image_json_path := PNone;
     _default_bg := None;
     neopix := false;
     _uselocal := false;
     _success_callback := false;
     _text_font := true;
     _text_color := [1; 2; 3];
     _text_position := [Some (0, 10); Some (0, 20); Some (0, 30)];
     _text_wrap := [0; 0; 0];
     _text_maxlen := [0; 0; 0] |}.

(** The object right after construction with one text slot: the scene
    holds the background group, the default background is shown from
    file 1. *)
Definition constructed : State :=
  {| splash := [Group 0];
     _bg_group := [Sprite 2 1%nat];
     _bg_file := Some 1%nat;
     _text := [None];
     next_obj := 3%nat;
     trace := [] |}.

(** The object right after construction without a default background. *)
Definition blank : State :=
  {| splash := [Group 0];
     _bg_group := [];
     _bg_file := None;
     _text := [None];
     next_obj := 1%nat;
     trace := [] |}.

(** Three text slots after their first rendering. *)
Definition three_slots : State :=
  {| splash := [Group 0; TextArea 1 "a" 1 0 10; TextArea 2 "b" 2 0 20;
                TextArea 3 "c" 3 0 30];
     _bg_group := [];
     _bg_file := None;
     _text := [Some (TextArea 1 "a" 1 0 10); Some (TextArea 2 "b" 2 0 20);
               Some (TextArea 3 "c" 3 0 30)];
     next_obj := 4%nat;
     trace := [] |}.

Definition doc_with_photo : PyVal :=
  PDict [("title", PStr "1234"); ("url", PStr photo)].

Definition doc_empty_images : PyVal :=
  PDict [("title", PStr "1234"); ("images", PDict [])].

(** Errors of the collaborators. *)
Definition parse_error : Exn := mkExn ValueError [PStr "syntax error in JSON"].
Definition send_failed : Exn := mkExn RuntimeError [PStr "Failed to send HTTP request"].
Definition no_interface : Exn :=
  mkExn AttributeError [PStr "'NoneType' object has no attribute 'get_socket'"].
Definition bad_bitmap : Exn := mkExn ValueError [PStr "Invalid BMP file"].

(** The state in which the response arrives when the body is not JSON. *)
Definition after_response : State := Eval vm_compute in
  snd (fetch_begin (world (inl parse_error)) (config false PNone) 1 constructed).

(** The states of a fetch whose cached bitmap does not decode: when the
    response arrives, when extraction is done, when the image step fails. *)
Definition bitmap_begin : State := Eval vm_compute in
  snd (fetch_begin (world_bad_bitmap (inr doc_with_photo) bad_bitmap)
         (config false (PList [PStr "url"])) 1 constructed).
Definition bitmap_extracted : State := Eval vm_compute in
  snd (extract (world_bad_bitmap (inr doc_with_photo) bad_bitmap)
         (config false (PList [PStr "url"])) (reply body) bitmap_begin).
Definition bitmap_failed : State := Eval vm_compute in
  snd (image_body (world_bad_bitmap (inr doc_with_photo) bad_bitmap)
         (config false (PList [PStr "url"])) (PStr photo) bitmap_extracted).

End Scenario.

(* ================================================================== *)
(** ** More devices and states *)

Module Cases.

(** A device without network: the access point cannot be joined. *)
Definition join_failed : Exn := mkExn RuntimeError [PStr "Failed to connect to ssid"].

Definition world_offline : World :=
  {| w_is_connected := fun _ => false;
     w_connect := fun _ => Some join_failed;
     w_get := fun _ _ _ => inl Scenario.send_failed;
     w_open := fun _ _ _ => None;
     w_read := fun _ _ => inr Scenario.body;
     w_write := fun _ _ _ => None;
     w_stat_size := fun _ _ => inr 4;
     w_bitmap := fun _ _ => None;
     w_json := fun _ => inr PNone;
     w_search := fun _ _ => inl (mkExn AttributeError [PStr "no match"]);
     w_int := Scenario.int_of_string;
     w_repr := fun _ => "<object>";
     w_callback := fun _ _ => None;
     w_mem_free := fun _ => 0 |}.

(** A device on which no file can be opened. *)
Definition no_such_file : Exn := mkExn OSError [PInt 2].

Definition world_no_file : World :=
  {| w_is_connected := fun _ => true;
     w_connect := fun _ => None;
     w_get := fun _ _ _ => inr (Scenario.reply Scenario.body);
     w_open := fun _ _ _ => Some no_such_file;
     w_read := fun _ _ => inr Scenario.body;
     w_write := fun _ _ _ => None;
     w_stat_size := fun _ _ => inr 4;
     w_bitmap := fun _ _ => None;
     w_json := fun _ => inr PNone;
     w_search := fun _ _ => inl (mkExn AttributeError [PStr "no match"]);
     w_int := Scenario.int_of_string;
     w_repr := fun _ => "<object>";
     w_callback := fun _ _ => None;
     w_mem_free := fun _ => 0 |}.

(** No path, no callback, no text slot: the body is the value. *)
Definition config_raw : Config :=
  {| _debug := false;
     _url := "http://host/data.txt";
     _json_path := PNone;
     _regexp_path := PNone;
     _image_json_path := PNone;
     _default_bg := None;
     neopix := false;
     _uselocal := false;
     _success_callback := false;
     _text_font := false;
     _text_color := [];
     _text_position := [];
     _text_wrap := [];
     _text_maxlen := [] |}.

(** The object built without a font. *)
Definition no_text : State :=
  {| splash := [Group 0];
     _bg_group := [];
     _bg_file := None;
     _text := [];
     next_obj := 1%nat;
     trace := [] |}.

(** States reached on these devices. *)
Definition connected : State := Eval vm_compute in
  snd (_connect_esp (Scenario.world (inr PNone)) (Scenario.config false PNone) 1
         Scenario.constructed).

Definition shown : State := Eval vm_compute in
  snd (set_background (Scenario.world (inr PNone)) (Some "/a.bmp") Scenario.blank).

Definition not_shown : State := Eval vm_compute in
  snd (set_background world_no_file (Some "/missing.bmp") Scenario.constructed).

Definition responded : State := Eval vm_compute in
  snd (fetch_begin (Scenario.world (inr (PDict []))) (Scenario.config false PNone) 1
         Scenario.constructed).

Definition not_joined : State := Eval vm_compute in
  snd (fetch_begin world_offline (Scenario.config false PNone) 1 Scenario.constructed).

Definition responded_raw : State := Eval vm_compute in
  snd (fetch_begin (Scenario.world (inr PNone)) config_raw 1 no_text).

End Cases.

(* ================================================================== *)
(** ** Vocabulary of the statements *)

(** A key of a path, a path, a sequence of paths. *)
Definition is_key (v : PyVal) : bool :=
  match v with
  | PStr _ | PInt _ => true
  | _ => false
  end.

Definition is_path (v : PyVal) : bool :=
  match v with
  | PList l | PTuple l => forallb is_key l
  | _ => false
  end.

Definition is_path_seq (v : PyVal) : bool :=
  match v with
  | PList l | PTuple l => forallb is_path l
  | _ => false
  end.

(** What a caller may pass as [json_path]: nothing, one path, or a
    sequence of paths. *)
Definition json_path_arg (v : PyVal) : bool :=
  match v with
  | PNone => true
  | _ => is_path v || is_path_seq v
  end.

(** A line that is one word: splitting it at spaces gives it back. *)
Definition single_word (l : string) : Prop := split_space l = [l].

(** A line within the width, or else a single word. *)
Definition line_ok (words : list string) (m : Z) (l : string) : Prop :=
  Z.of_nat (String.length l) <= m \/
  (single_word l /\ (l = "" \/ In l words)).

(** The first line of the wrapper's accumulator. *)
Definition first_line (acc : list string * string) : string :=
  match fst acc with
  | [] => snd acc
  | l :: _ => l
  end.

Definition blank_or_indented (l : string) : Prop :=
  l = "" \/ exists t, l = String " " t.

(** The handles that are open after a run of events, given those that
    were open before it. *)
Fixpoint open_after (evs : list Event) (opened : list Handle) : list Handle :=
  match evs with
  | [] => opened
  | EvOpen _ _ h :: rest => open_after rest (h :: opened)
  | EvClose h :: rest => open_after rest (remove Nat.eq_dec h opened)
  | _ :: rest => open_after rest opened
  end.

Definition open_handles (tr : list Event) : list Handle := open_after tr [].

(** Along a run of events, no file is opened while another is open. *)
Fixpoint closed_before_open (evs : list Event) (opened : list Handle) : Prop :=
  match evs with
  | [] => True
  | e :: rest =>
      match e with
      | EvOpen _ _ _ => opened = []
      | _ => True
      end /\ closed_before_open rest (open_after [e] opened)
  end.

(** A recorded state of the background group with at most one child. *)
Definition small_group (e : Event) : Prop :=
  match e with
  | EvBgGroup children => (List.length children <= 1)%nat
  | _ => True
  end.

(** The background of a consistent object: at most one sprite in the
    group, and no open file other than the recorded background file. *)
Definition bg_inv (s : State) : Prop :=
  (List.length (_bg_group s) <= 1)%nat /\
  forall h, In h (open_handles (trace s)) -> _bg_file s = Some h.

(** Events of the network: polling or joining the access point, and
    HTTP requests. *)
Definition is_network (e : Event) : bool :=
  match e with
  | EvIsConnected | EvConnect | EvGet _ _ => true
  | _ => false
  end.

(** Events of fetching or showing an image: a streamed request, a write
    to a file, a change of the background group. *)
Definition is_image_event (e : Event) : bool :=
  match e with
  | EvGet _ true | EvWrite _ _ | EvBgGroup _ => true
  | _ => false
  end.

(** What is on the display, and the recorded background file. *)
Definition same_display (s s' : State) : Prop :=
  splash s' = splash s /\ _bg_group s' = _bg_group s /\
  _bg_file s' = _bg_file s /\ _text s' = _text s.

(** From [s] to [s'] the display is untouched and every new event
    satisfies [Q]. *)
Definition adds (Q : Event -> Prop) (s s' : State) : Prop :=
  same_display s s' /\
  exists evs, trace s' = (trace s ++ evs)%list /\ Forall Q evs.

(** A computation that, from any state, leaves the display alone and
    emits only events satisfying [Q]. *)
Definition only {A : Type} (Q : Event -> Prop) (m : M A) : Prop :=
  forall s, adds Q s (snd (m s)).

(** The same configuration with another answer to "is the local file
    there?". *)
Definition with_uselocal (b : bool) (cfg : Config) : Config :=
  {| _debug := _debug cfg;
     _url := _url cfg;
     _json_path := _json_path cfg;
     _regexp_path := _regexp_path cfg;
     _image_json_path := _image_json_path cfg;
     _default_bg := _default_bg cfg;
     neopix := neopix cfg;
     _uselocal := b;
     _success_callback := _success_callback cfg;
     _text_font := _text_font cfg;
     _text_color := _text_color cfg;
     _text_position := _text_position cfg;
     _text_wrap := _text_wrap cfg;
     _text_maxlen := _text_maxlen cfg |}.

(** The document that holds [v] at the end of the path [keys] and
    nothing else: an object for a string key, a list that is just long
    enough for an index. *)
Fixpoint nest (keys : list PyVal) (v : PyVal) : PyVal :=
  match keys with
  | [] => v
  | PStr k :: rest => PDict [(k, nest rest v)]
  | PInt i :: rest => PList (repeat PNone (Z.to_nat i) ++ [nest rest v])
  | _ :: rest => nest rest v
  end.

(** A string key, or an index that is not negative. *)
Definition plain_key (k : PyVal) : bool :=
  match k with
  | PStr _ => true
  | PInt i => 0 <=? i
  | _ => false
  end.

(** The character [c] does not occur in [s]. *)
Fixpoint lacks (c : ascii) (s : string) : bool :=
  match s with
  | EmptyString => true
  | String a rest => negb (Ascii.eqb a c) && lacks c rest
  end.

(** A field of a time stamp: none of the separators occurs in it. *)
Definition is_field (s : string) : bool :=
  lacks "T" s && lacks "-" s && lacks ":" s && lacks "." s.

(** The pixel [p] of a scan line: bit [7 - p % 8] of byte [p // 8]. *)
Definition pixel (line : list Z) (p : Z) : bool :=
  Z.testbit (nth (Z.to_nat (p / 8)) line 0) (7 - p mod 8).

(** An event that neither opens nor closes a file. *)
Definition not_file_event (e : Event) : Prop :=
  match e with
  | EvOpen _ _ _ | EvClose _ => False
  | _ => True
  end.

(** A computation that leaves the display alone and, by the time it
    ends, has closed every file it opened. *)
Definition tidy {A : Type} (m : M A) : Prop :=
  forall s,
    same_display s (snd (m s)) /\
    exists evs, trace (snd (m s)) = (trace s ++ evs)%list /\ open_after evs [] = [].

(** The words [ws], each behind a space. *)
Fixpoint spaced (ws : list string) : string :=
  match ws with
  | [] => ""
  | w :: rest => " " ++ w ++ spaced rest
  end.

(** The five lists of the text slots all have [n] entries. *)
Definition slots_of_length (n : nat) (ts : TextSlots) : Prop :=
  List.length (ts_text ts) = n /\ List.length (ts_color ts) = n /\
  List.length (ts_position ts) = n /\ List.length (ts_wrap ts) = n /\
  List.length (ts_maxlen ts) = n.

(** A scan line of [n] bytes. *)
Definition scan_line (n : nat) (line : list Z) : Prop :=
  List.length line = n /\ Forall (fun b => 0 <= b < 256) line.

(** An event other than the closing of the response. *)
Definition not_close (e : Event) : Prop := e <> EvResponseClose.

(** A computation that leaves the display alone and closes the response
    exactly when it succeeds. *)
Definition closes_on_success {A : Type} (m : M A) : Prop :=
  forall s,
    same_display s (snd (m s)) /\
    exists evs, trace (snd (m s)) = (trace s ++ evs)%list /\
      (In EvResponseClose evs <-> exists a, fst (m s) = Ok a).

(* ------------------------------------------------------------------ *)
(** *** Tactics *)

(** Unfold the monad and compute. *)
Ltac run :=
  unfold bind, ret, raise, print, emit, modify, get_state, ask, fresh,
    try_except, when, lift, lift_opt, gc_collect, file_close; cbn.

(** Split on the next outcome that [set_background] depends on. *)
Ltac case_step :=
  match goal with
  | |- context [match list_pop ?l with _ => _ end] =>
      let H := fresh "Hpop" in destruct (list_pop l) as [[? ?]|] eqn:H
  | |- context [truthy ?v] =>
      let H := fresh "Htruthy" in destruct (truthy v) eqn:H
  | |- context [match _bg_file ?s with _ => _ end] =>
      let H := fresh "Hfile" in destruct (_bg_file s) eqn:H
  | |- context [match w_open ?W ?t ?n ?m with _ => _ end] =>
      let H := fresh "Hopened" in destruct (w_open W t n m) eqn:H
  | |- context [match w_bitmap ?W ?t ?h with _ => _ end] =>
      let H := fresh "Hbitmap" in destruct (w_bitmap W t h) eqn:H
  | |- context [match List.length ?l with _ => _ end] =>
      let H := fresh "Hlength" in destruct (List.length l) eqn:H
  end; run.

(* ================================================================== *)
(** ** wrap_nicely: the lines and their lengths *)

Lemma split_space_not_nil (s : string) : split_space s <> [].
Proof.
  destruct s as [|c rest]; simpl; [discriminate|].
  destruct (Ascii.eqb c " "); [discriminate|].
  destruct (split_space rest); discriminate.
Qed.

Lemma split_space_words (s w : string) :
  In w (split_space s) -> single_word w.
Proof.
  unfold single_word. revert w.
  induction s as [|c rest IH]; intros w Hin; simpl in Hin.
  - destruct Hin as [<-|[]]. reflexivity.
  - destruct (Ascii.eqb c " ") eqn:Hc.
    + destruct Hin as [<-|Hin]; [reflexivity|auto].
    + destruct (split_space rest) as [|w0 ws] eqn:Hrest.
      * destruct Hin as [<-|[]]. simpl. rewrite Hc. reflexivity.
      * destruct Hin as [<-|Hin].
        -- simpl. rewrite Hc. rewrite (IH w0 (or_introl eq_refl)). reflexivity.
        -- apply IH. right. exact Hin.
Qed.

Lemma wrap_step_cases (m : Z) (lines : list string) (line w : string) :
  (Z.of_nat (String.length (line ++ " " ++ w)) <= m /\
   wrap_step m (lines, line) w = (lines, line ++ " " ++ w)) \/
  (m < Z.of_nat (String.length (line ++ " " ++ w)) /\
   wrap_step m (lines, line) w = ((lines ++ [line])%list, w)).
Proof.
  unfold wrap_step.
  destruct (Z.leb_spec (Z.of_nat (String.length (line ++ " " ++ w))) m); auto.
Qed.

Lemma wrap_fold_lines (words : list string) (m : Z) :
  forall (ws : list string) (acc : list string * string),
    (forall w, In w ws -> In w words /\ single_word w) ->
    (forall l, In l (fst acc) -> line_ok words m l) ->
    line_ok words m (snd acc) ->
    (forall l, In l (fst (fold_left (wrap_step m) ws acc)) -> line_ok words m l) /\
    line_ok words m (snd (fold_left (wrap_step m) ws acc)).
Proof.
  induction ws as [|w ws IH]; intros [lines line] Hws Hlines Hline.
  - split; assumption.
  - cbn [fold_left].
    assert (Hw : In w words /\ single_word w) by (apply Hws; left; reflexivity).
    assert (Hrest : forall w', In w' ws -> In w' words /\ single_word w')
      by (intros w' Hw'; apply Hws; right; exact Hw').
    destruct (wrap_step_cases m lines line w) as [[Hfit ->]|[Hover ->]];
      apply IH; cbn [fst snd] in *; auto.
    + left. exact Hfit.
    + intros l Hl. apply in_app_or in Hl. destruct Hl as [Hl|[<-|[]]]; auto.
    + right. split; [apply Hw|right; apply Hw].
Qed.

Lemma wrap_nicely_lines (text : string) (m : Z) (l : string) :
  In l (wrap_nicely text m) -> line_ok (split_space text) m l.
Proof.
  unfold wrap_nicely.
  destruct (wrap_fold_lines (split_space text) m (split_space text) ([], ""))
    as [Hlines Hline].
  - intros w Hw. split; [exact Hw|exact (split_space_words _ _ Hw)].
  - intros l' [].
  - right. split; [reflexivity|left; reflexivity].
  - destruct (fold_left (wrap_step m) (split_space text) ([], "")) as [lines line].
    cbn [fst snd] in *.
    destruct (truthy (PStr line)); intros Hl; auto.
    apply in_app_or in Hl. destruct Hl as [Hl|[<-|[]]]; auto.
Qed.

(** C6.  Every line returned by [wrap_nicely] is at most [max_chars]
    long, or else it is a single word (it holds no space) that is itself
    longer than [max_chars]; for a width that is not negative that word
    is one of the words of the input. *)
Theorem wrap_nicely_line_length (text : string) (m : Z) (l : string) :
  In l (wrap_nicely text m) ->
  Z.of_nat (String.length l) <= m \/
  (single_word l /\ m < Z.of_nat (String.length l) /\
   (0 <= m -> In l (split_space text))).
Proof.
  intros Hl.
  destruct (Z.leb_spec (Z.of_nat (String.length l)) m) as [Hle|Hgt]; [left; exact Hle|].
  right.
  destruct (wrap_nicely_lines text m l Hl) as [Hle|[Hword Hfrom]]; [lia|].
  repeat split; auto.
  intros Hm. destruct Hfrom as [->|Hin]; [simpl in Hgt; lia|exact Hin].
Qed.

Lemma wrap_nicely_line_length_witness :
  Z.of_nat (String.length "bcdef") <= 3 \/
  (single_word "bcdef" /\ 3 < Z.of_nat (String.length "bcdef") /\
   (0 <= 3 -> In "bcdef" (split_space "a bcdef"))).
Proof.
  apply (wrap_nicely_line_length "a bcdef" 3 "bcdef").
  vm_compute. right. left. reflexivity.
Defined.

(* ------------------------------------------------------------------ *)
(** *** The first line *)

Lemma wrap_step_first_line (m : Z) (acc : list string * string) (w : string) :
  blank_or_indented (first_line acc) ->
  (fst acc = [] -> snd acc <> "") ->
  blank_or_indented (first_line (wrap_step m acc w)) /\
  (fst (wrap_step m acc w) = [] -> snd (wrap_step m acc w) <> "").
Proof.
  destruct acc as [lines line]. unfold first_line. cbn [fst snd].
  intros Hfirst Hne.
  destruct (wrap_step_cases m lines line w) as [[_ ->]|[_ ->]]; cbn [fst snd].
  - destruct lines as [|l0 rest].
    + specialize (Hne eq_refl).
      destruct Hfirst as [->|[t ->]]; [contradiction|].
      split; [right; exists (t ++ " " ++ w); reflexivity|discriminate].
    + split; [exact Hfirst|discriminate].
  - destruct lines as [|l0 rest]; cbn [app].
    + split; [exact Hfirst|discriminate].
    + split; [exact Hfirst|discriminate].
Qed.

Lemma wrap_fold_first_line (m : Z) :
  forall (ws : list string) (acc : list string * string),
    blank_or_indented (first_line acc) ->
    (fst acc = [] -> snd acc <> "") ->
    blank_or_indented (first_line (fold_left (wrap_step m) ws acc)) /\
    (fst (fold_left (wrap_step m) ws acc) = [] ->
     snd (fold_left (wrap_step m) ws acc) <> "").
Proof.
  induction ws as [|w ws IH]; intros acc Hfirst Hne; cbn [fold_left].
  - split; assumption.
  - destruct (wrap_step_first_line m acc w Hfirst Hne) as [H1 H2].
    apply IH; assumption.
Qed.

Lemma truthy_nonempty (s : string) : s <> "" -> truthy (PStr s) = true.
Proof.
  intros Hs. simpl. destruct (String.eqb_spec s ""); [contradiction|reflexivity].
Qed.

(** X25.  Whatever the text and the width, [wrap_nicely] returns at least one
    line and the first one is empty or begins with a space. *)
Lemma wrap_nicely_first_line (text : string) (m : Z) :
  exists l rest, wrap_nicely text m = l :: rest /\ blank_or_indented l.
Proof.
  unfold wrap_nicely.
  destruct (split_space text) as [|w0 ws] eqn:Hsplit;
    [exfalso; exact (split_space_not_nil text Hsplit)|].
  cbn [fold_left].
  destruct (wrap_fold_first_line m ws (wrap_step m ([], "") w0)) as [Hfirst Hne].
  - destruct (wrap_step_cases m [] "" w0) as [[_ ->]|[_ ->]]; unfold first_line;
      cbn [fst snd app].
    + right. exists w0. reflexivity.
    + left. reflexivity.
  - destruct (wrap_step_cases m [] "" w0) as [[_ ->]|[_ ->]]; cbn [fst snd app];
      discriminate.
  - destruct (fold_left (wrap_step m) ws (wrap_step m ([], "") w0)) as [lines line].
    unfold first_line in Hfirst. cbn [fst snd] in *.
    destruct lines as [|l0 rest].
    + rewrite (truthy_nonempty line (Hne eq_refl)).
      exists line, []. split; [reflexivity|exact Hfirst].
    + destruct (truthy (PStr line)); cbn [app]; eauto.
Qed.

(** C5.  The wrapped lines of the words [a b] at width 10 are the single
    line [" a b"], which begins with a space; and a word that exactly
    fills the width is preceded by an empty line. *)
Theorem wrap_nicely_leading_space :
  wrap_nicely (join " " ["a"; "b"]) 10 = [" a b"] /\
  split_space (join " " (wrap_nicely (join " " ["a"; "b"]) 10)) = [""; "a"; "b"] /\
  wrap_nicely (join " " ["hello"]) 5 = [""; "hello"].
Proof. vm_compute. repeat split. Qed.

(* ================================================================== *)
(** ** The stored JSON path *)

Lemma getitem_first (first : PyVal) (rest : list PyVal) :
  getitem (PList (first :: rest)) (PInt 0) = inr first /\
  getitem (PTuple (first :: rest)) (PInt 0) = inr first.
Proof.
  unfold getitem, seq_index.
  assert (H : (0 <? Z.of_nat (List.length (first :: rest))) = true)
    by (apply Z.ltb_lt; simpl List.length; lia).
  rewrite H. simpl. auto.
Qed.

Lemma path_head_not_sequence (first : PyVal) (rest : list PyVal) :
  forallb is_key (first :: rest) = true -> is_list_or_tuple first = false.
Proof.
  simpl. intros H. apply andb_prop in H. destruct H as [H _].
  destruct first; simpl in *; congruence.
Qed.

Lemma path_seq_head_sequence (first : PyVal) (rest : list PyVal) :
  forallb is_path (first :: rest) = true -> is_list_or_tuple first = true.
Proof.
  simpl. intros H. apply andb_prop in H. destruct H as [H _].
  destruct first; simpl in *; congruence.
Qed.

(** C10.  When the constructor accepts [json_path], what it stores is
    [None] or a non-empty sequence; a non-empty argument whose first
    element is not a list or tuple is stored wrapped in a one-element
    tuple; and for an argument that is nothing, a path or a sequence of
    paths, the stored value is [None] or a sequence of paths, which is
    what the loop of [fetch] iterates over. *)
Theorem init_json_path_stored (arg stored : PyVal) :
  init_json_path arg = inr stored ->
  (forall first, truthy arg = true -> getitem arg (PInt 0) = inr first ->
     is_list_or_tuple first = false -> stored = PTuple [arg]) /\
  (json_path_arg arg = true ->
     stored = PNone \/
     (truthy stored = true /\ is_path_seq stored = true /\
      exists paths, py_iter stored = inr paths /\ forallb is_path paths = true)).
Proof.
  unfold init_json_path. intros Hinit. split.
  - intros first Htruthy Hget Hfirst.
    rewrite Htruthy, Hget, Hfirst in Hinit. congruence.
  - intros Harg.
    destruct (truthy arg) eqn:Htruthy; [|left; congruence].
    right.
    assert (Hwrap : forall l first rest, l = first :: rest ->
              forallb is_key l || forallb is_path l = true ->
              (if is_list_or_tuple first then @inr Exn PyVal arg
               else inr (PTuple [arg])) = inr stored ->
              (arg = PList l \/ arg = PTuple l) ->
              truthy stored = true /\ is_path_seq stored = true /\
              exists paths, py_iter stored = inr paths /\ forallb is_path paths = true).
    { intros l first rest -> Hshape Hstored Hseq.
      apply orb_prop in Hshape. destruct Hshape as [Hpath|Hpaths].
      - rewrite (path_head_not_sequence _ _ Hpath) in Hstored.
        injection Hstored as <-.
        assert (Hp : is_path arg = true) by (destruct Hseq as [->| ->]; exact Hpath).
        split; [reflexivity|]. split; [simpl; rewrite Hp; reflexivity|].
        exists [arg]. split; [reflexivity|simpl; rewrite Hp; reflexivity].
      - rewrite (path_seq_head_sequence _ _ Hpaths) in Hstored.
        injection Hstored as <-.
        split; [exact Htruthy|].
        destruct Hseq as [->| ->]; (split; [exact Hpaths|]);
          eexists; (split; [reflexivity|exact Hpaths]). }
    destruct arg as [|b|z|t|l|l|d]; simpl in Harg; try discriminate;
      destruct l as [|first rest]; try discriminate Htruthy;
      destruct (getitem_first first rest) as [HL HT];
      rewrite ?HL, ?HT in Hinit;
      eapply Hwrap; eauto.
Qed.

Lemma init_json_path_stored_witness :
  (forall first, truthy (PList [PStr "main"; PInt 0]) = true ->
     getitem (PList [PStr "main"; PInt 0]) (PInt 0) = inr first ->
     is_list_or_tuple first = false ->
     PTuple [PList [PStr "main"; PInt 0]] = PTuple [PList [PStr "main"; PInt 0]]) /\
  (json_path_arg (PList [PStr "main"; PInt 0]) = true ->
     PTuple [PList [PStr "main"; PInt 0]] = PNone \/
     (truthy (PTuple [PList [PStr "main"; PInt 0]]) = true /\
      is_path_seq (PTuple [PList [PStr "main"; PInt 0]]) = true /\
      exists paths, py_iter (PTuple [PList [PStr "main"; PInt 0]]) = inr paths /\
                    forallb is_path paths = true)).
Proof.
  apply (init_json_path_stored (PList [PStr "main"; PInt 0])
           (PTuple [PList [PStr "main"; PInt 0]])).
  reflexivity.
Defined.

(* ================================================================== *)
(** ** set_background *)

Lemma list_pop_none {A : Type} (l : list A) : list_pop l = None -> l = [].
Proof.
  unfold list_pop. intros H. rewrite <- (rev_involutive l).
  destruct (rev l); [reflexivity|discriminate].
Qed.

Lemma list_pop_some {A : Type} (l r : list A) (x : A) :
  list_pop l = Some (r, x) -> l = (r ++ [x])%list.
Proof.
  unfold list_pop. intros H. rewrite <- (rev_involutive l).
  destruct (rev l) as [|y t]; [discriminate|].
  injection H as <- <-. reflexivity.
Qed.


(** C9.  With a falsy file name, [set_background] succeeds, takes the
    last child (if any) out of the background group, leaves the recorded
    background file and everything else as they were, and opens or
    closes no file: the only events are the print and, when a sprite was
    removed, the change of the group. *)
Theorem set_background_falsy (W : World) (filename : option string) (s : State) :
  truthy (opt_path filename) = false ->
  exists s',
    set_background W filename s = (Ok tt, s') /\
    _bg_group s' = removelast (_bg_group s) /\
    _bg_file s' = _bg_file s /\
    splash s' = splash s /\
    _text s' = _text s /\
    trace s' =
      (trace s ++
       EvPrint [PStr "Set background to "; opt_path filename] ::
       match _bg_group s with
       | [] => []
       | _ :: _ => [EvBgGroup (removelast (_bg_group s))]
       end)%list.
Proof.
  intros Hfalsy. unfold set_background, bg_group_pop. run.
  destruct (list_pop (_bg_group s)) as [[rest x]|] eqn:Hpop; run; rewrite Hfalsy; cbn.
  - apply list_pop_some in Hpop. rewrite Hpop, removelast_last.
    eexists. split; [reflexivity|]. cbn.
    repeat split.
    destruct rest; cbn; rewrite <- app_assoc; reflexivity.
  - apply list_pop_none in Hpop. rewrite Hpop.
    eexists. split; [reflexivity|]. cbn. repeat split. exact Hpop.
Qed.

Lemma open_after_app (a b : list Event) (opened : list Handle) :
  open_after (a ++ b) opened = open_after b (open_after a opened).
Proof.
  revert opened. induction a as [|e a IH]; intros opened; [reflexivity|].
  destruct e; cbn; apply IH.
Qed.

Lemma open_handles_app (tr evs : list Event) :
  open_handles (tr ++ evs) = open_after evs (open_handles tr).
Proof. apply open_after_app. Qed.

Lemma remove_only (h : Handle) (l : list Handle) :
  (forall x, In x l -> x = h) -> remove Nat.eq_dec h l = [].
Proof.
  induction l as [|x l IH]; intros Hall; [reflexivity|].
  cbn. destruct (Nat.eq_dec h x) as [_|Hne].
  - apply IH. intros y Hy. apply Hall. right. exact Hy.
  - exfalso. apply Hne. symmetry. apply Hall. left. reflexivity.
Qed.

Lemma closed_before_open_app (a b : list Event) (opened : list Handle) :
  closed_before_open (a ++ b) opened <->
  closed_before_open a opened /\ closed_before_open b (open_after a opened).
Proof.
  revert opened. induction a as [|e a IH]; intros opened; cbn [app closed_before_open].
  - cbn. tauto.
  - rewrite IH. change (e :: a) with ([e] ++ a)%list. rewrite (open_after_app [e] a). tauto.
Qed.


Lemma set_background_step (W : World) (f : option string) (s : State) :
  bg_inv s ->
  exists evs,
    trace (snd (set_background W f s)) = (trace s ++ evs)%list /\
    bg_inv (snd (set_background W f s)) /\
    Forall small_group evs /\
    closed_before_open evs (open_handles (trace s)).
Proof.
  intros [Hlen Hopen].
  assert (Hclosed : forall old, _bg_file s = Some old ->
            remove Nat.eq_dec old (open_handles (trace s)) = []).
  { intros old Hold. apply remove_only. intros x Hx.
    specialize (Hopen x Hx). congruence. }
  assert (Hnone : _bg_file s = None -> open_handles (trace s) = []).
  { intros Hfile. destruct (open_handles (trace s)) as [|h t]; [reflexivity|].
    specialize (Hopen h (or_introl eq_refl)). congruence. }
  unfold set_background, bg_group_pop, bg_group_append, file_open, bg_inv. run.
  repeat case_step.
  all: repeat rewrite <- app_assoc; cbn [app].
  all: eexists; (split; [reflexivity|]).
  all: cbn [trace _bg_group _bg_file set_trace set_bg_group set_bg_file set_next_obj snd].
  all: rewrite ?open_after_app; fold (open_handles (trace s)); cbn [open_after closed_before_open].
  all: try (apply list_pop_some in Hpop; rewrite Hpop in Hlen;
            rewrite length_app in Hlen; cbn in Hlen).
  all: try (apply list_pop_none in Hpop).
  all: try (rewrite (Hclosed _ eq_refl)).
  all: try (rewrite (Hnone eq_refl)).
  all: try (rewrite Hfile).
  all: try (exfalso; lia).
  all: repeat split; auto.
  all: try (rewrite ?length_app; cbn; lia).
  all: try (intros ? [<-|[]]; reflexivity).
  all: try (destruct l; [|cbn in Hlen; lia]); rewrite ?Hpop.
  all: repeat constructor; cbn; lia.
Qed.

Lemma set_backgrounds_steps (W : World) (filenames : list (option string)) :
  forall s, bg_inv s ->
  exists evs,
    trace (set_backgrounds W filenames s) = (trace s ++ evs)%list /\
    bg_inv (set_backgrounds W filenames s) /\
    Forall small_group evs /\
    closed_before_open evs (open_handles (trace s)).
Proof.
  induction filenames as [|f rest IH]; intros s Hinv; cbn [set_backgrounds].
  - exists []. rewrite app_nil_r. repeat split; auto; apply Hinv.
  - destruct (set_background_step W f s Hinv) as (evs1 & Htr1 & Hinv1 & Hsmall1 & Hclosed1).
    destruct (IH _ Hinv1) as (evs2 & Htr2 & Hinv2 & Hsmall2 & Hclosed2).
    exists (evs1 ++ evs2)%list. repeat split; try apply Hinv2.
    + rewrite Htr2, Htr1, app_assoc. reflexivity.
    + apply Forall_app. split; assumption.
    + apply closed_before_open_app. split; [exact Hclosed1|].
      rewrite Htr1, open_handles_app in Hclosed2. exact Hclosed2.
Qed.

Lemma closed_before_open_at (pre post : list Event) (f m : string) (h : Handle)
  (opened : list Handle) :
  closed_before_open (pre ++ EvOpen f m h :: post) opened ->
  open_after pre opened = [].
Proof.
  intros H. apply closed_before_open_app in H. destruct H as [_ H].
  cbn in H. apply H.
Qed.

(** C8.  Start from an object whose background group holds at most one
    sprite and whose only open file, if any, is the recorded background
    file (as after construction).  Then, along any sequence of
    [set_background] calls, whatever the file system and the decoder
    answer: every recorded state of the background group, and the final
    one, has at most one sprite; and at each point where a file is
    opened, no file opened earlier is still open. *)
Theorem set_backgrounds_invariant (W : World) (filenames : list (option string))
  (s : State) :
  bg_inv s ->
  exists evs,
    trace (set_backgrounds W filenames s) = (trace s ++ evs)%list /\
    (List.length (_bg_group (set_backgrounds W filenames s)) <= 1)%nat /\
    (forall children, In (EvBgGroup children) evs ->
       (List.length children <= 1)%nat) /\
    (forall pre f m h post, evs = (pre ++ EvOpen f m h :: post)%list ->
       open_handles (trace s ++ pre) = []).
Proof.
  intros Hinv.
  destruct (set_backgrounds_steps W filenames s Hinv)
    as (evs & Htr & Hinv' & Hsmall & Hclosed).
  exists evs. repeat split.
  - exact Htr.
  - apply Hinv'.
  - intros children Hin. rewrite Forall_forall in Hsmall.
    exact (Hsmall _ Hin).
  - intros pre f m h post ->. rewrite open_handles_app.
    exact (closed_before_open_at _ _ _ _ _ _ Hclosed).
Qed.

Lemma set_background_falsy_witness :
  exists s',
    set_background (Scenario.world (inr PNone)) None Scenario.constructed = (Ok tt, s') /\
    _bg_group s' = removelast (_bg_group Scenario.constructed) /\
    _bg_file s' = _bg_file Scenario.constructed /\
    splash s' = splash Scenario.constructed /\
    _text s' = _text Scenario.constructed /\
    trace s' =
      (trace Scenario.constructed ++
       EvPrint [PStr "Set background to "; opt_path None] ::
       match _bg_group Scenario.constructed with
       | [] => []
       | _ :: _ => [EvBgGroup (removelast (_bg_group Scenario.constructed))]
       end)%list.
Proof.
  apply (set_background_falsy (Scenario.world (inr PNone)) None Scenario.constructed).
  reflexivity.
Defined.

Lemma set_backgrounds_invariant_witness :
  exists evs,
    trace (set_backgrounds (Scenario.world (inr PNone))
             [Some "/a.bmp"; None; Some "/b.bmp"] Scenario.blank)
    = (trace Scenario.blank ++ evs)%list /\
    (List.length (_bg_group (set_backgrounds (Scenario.world (inr PNone))
                               [Some "/a.bmp"; None; Some "/b.bmp"] Scenario.blank))
     <= 1)%nat /\
    (forall children, In (EvBgGroup children) evs ->
       (List.length children <= 1)%nat) /\
    (forall pre f m h post, evs = (pre ++ EvOpen f m h :: post)%list ->
       open_handles (trace Scenario.blank ++ pre) = []).
Proof.
  apply (set_backgrounds_invariant (Scenario.world (inr PNone))
           [Some "/a.bmp"; None; Some "/b.bmp"] Scenario.blank).
  split; [cbn; lia|intros h []].
Defined.

(* ================================================================== *)
(** ** set_text *)

Lemma same_object_refl (d : Drawable) : same_object d d = true.
Proof. apply Nat.eqb_refl. Qed.

Lemma pop_until_found (old : Drawable) (ys : list Drawable) :
  forall (xs items : list Drawable),
    (forall a, In a xs -> same_object a old = false) ->
    pop_until old (xs ++ old :: ys) items = (ys, (items ++ xs)%list).
Proof.
  induction xs as [|x xs IH]; intros items Hxs; cbn [app pop_until].
  - rewrite same_object_refl, app_nil_r. reflexivity.
  - rewrite (Hxs x (or_introl eq_refl)), IH.
    + rewrite <- app_assoc. reflexivity.
    + intros a Ha. apply Hxs. right. exact Ha.
Qed.

Lemma splash_append_fits (d : Drawable) (s : State) :
  (List.length (splash s) < SPLASH_MAX_SIZE)%nat ->
  splash_append d s = (Ok tt, set_splash (splash s ++ [d])%list s).
Proof.
  intros Hfit. unfold splash_append, bind, get_state. cbv beta iota.
  destruct (Nat.leb_spec SPLASH_MAX_SIZE (List.length (splash s))) as [Hfull|_];
    [lia|reflexivity].
Qed.

Lemma append_all_fits :
  forall (items : list Drawable) (s : State),
    (List.length (splash s) + List.length items <= SPLASH_MAX_SIZE)%nat ->
    append_all items s = (Ok tt, set_splash (splash s ++ items)%list s).
Proof.
  induction items as [|g items IH]; intros s Hfit; cbn [append_all].
  - unfold ret. rewrite app_nil_r. destruct s; reflexivity.
  - cbn [List.length] in Hfit. unfold bind.
    rewrite splash_append_fits by lia. rewrite IH.
    + cbn. rewrite <- app_assoc. reflexivity.
    + cbn. rewrite length_app. cbn. lia.
Qed.

Lemma replace_nth_twice {A : Type} (l : list A) (i : nat) (u v : A) :
  replace_nth (replace_nth l i u) i v = replace_nth l i v.
Proof.
  revert i. induction l as [|a l IH]; intros [|i]; cbn; try reflexivity.
  rewrite IH. reflexivity.
Qed.

Lemma make_text_area_positioned (cfg : Config) (text : string) (index : nat)
  (s : State) (color x y : Z) :
  nth_error (_text_color cfg) index = Some color ->
  nth_error (_text_position cfg) index = Some (Some (x, y)) ->
  make_text_area cfg text index s =
    (Ok (TextArea (next_obj s) text color x y),
     set_text_slots
       (replace_nth (_text s) index (Some (TextArea (next_obj s) text color x y)))
       (set_next_obj (S (next_obj s)) s)).
Proof.
  intros Hcolor Hpos. unfold make_text_area, lookup. rewrite Hcolor, Hpos. run.
  rewrite replace_nth_twice. reflexivity.
Qed.

(** X24.  Replacing the text of a slot whose text area is in the scene: the
    new text area takes the place of the old one, what was below stays
    below in the same order, and what was above comes back above in the
    reverse order. *)
Lemma set_text_replace_order (W : World) (cfg : Config) (val : PyVal) (index : nat)
  (s : State) (old : Drawable) (below above : list Drawable)
  (maxlen color x y : Z) :
  _text_font cfg = true ->
  nth_error (_text_maxlen cfg) index = Some maxlen ->
  nth_error (_text_color cfg) index = Some color ->
  nth_error (_text_position cfg) index = Some (Some (x, y)) ->
  nth_error (_text s) index = Some (Some old) ->
  splash s = (below ++ old :: above)%list ->
  (forall a, In a above -> same_object a old = false) ->
  (List.length (splash s) <= SPLASH_MAX_SIZE)%nat ->
  let text := if negb (maxlen =? 0) then slice_to (py_str W val) maxlen
              else py_str W val in
  let t := TextArea (next_obj s) text color x y in
  exists s',
    set_text W cfg val index s = (Ok tt, s') /\
    splash s' = (below ++ t :: rev above)%list /\
    _text s' = replace_nth (_text s) index (Some t).
Proof.
  intros Hfont Hmax Hcolor Hpos Hslot Hsplash Habove Hfit text t.
  unfold set_text. rewrite Hfont.
  unfold lookup at 1. rewrite Hmax.
  unfold bind at 1. unfold ret at 1.
  unfold bind at 1. unfold get_state at 1.
  unfold bind at 1. unfold lookup at 1. rewrite Hslot. unfold ret at 1.
  rewrite Hsplash, rev_app_distr. cbn [rev]. rewrite <- app_assoc. cbn [app].
  rewrite pop_until_found.
  2:{ intros a Ha. apply Habove. apply in_rev. exact Ha. }
  cbn [app]. rewrite rev_involutive.
  fold text. unfold bind at 1. unfold modify at 1.
  unfold bind at 1. rewrite (make_text_area_positioned cfg text index _ color x y Hcolor Hpos).
  cbn [next_obj set_splash _text]. fold t.
  unfold bind at 1. rewrite splash_append_fits.
  2:{ cbn. rewrite Hsplash, length_app in Hfit. cbn in Hfit. lia. }
  rewrite append_all_fits.
  2:{ cbn. rewrite Hsplash, length_app in Hfit. cbn in Hfit.
      rewrite length_app, length_rev. cbn. lia. }
  eexists. split; [reflexivity|]. cbn. rewrite <- app_assoc. split; reflexivity.
Qed.


(** C7.  Three text slots have been rendered, so the scene is the
    background group followed by the text areas [a], [b], [c].  Setting
    the text of slot 0 succeeds and puts the new text area where [a] was,
    but the two text areas above it come back in the opposite order:
    [c] is now below [b]. *)
Theorem set_text_reorders_siblings :
  splash Scenario.three_slots =
    [Group 0; TextArea 1 "a" 1 0 10; TextArea 2 "b" 2 0 20; TextArea 3 "c" 3 0 30] /\
  fst (set_text (Scenario.world (inr PNone)) Scenario.config3 (PStr "new") 0
         Scenario.three_slots) = Ok tt /\
  splash (snd (set_text (Scenario.world (inr PNone)) Scenario.config3 (PStr "new") 0
                 Scenario.three_slots)) =
    [Group 0; TextArea 4 "new" 1 0 10; TextArea 3 "c" 3 0 30; TextArea 2 "b" 2 0 20].
Proof. vm_compute. repeat split. Qed.

(* ================================================================== *)
(** ** Computations that leave the display alone *)

Lemma adds_refl (Q : Event -> Prop) (s : State) : adds Q s s.
Proof.
  split; [repeat split|]. exists []. rewrite app_nil_r. split; constructor.
Qed.

Lemma adds_trans (Q : Event -> Prop) (s1 s2 s3 : State) :
  adds Q s1 s2 -> adds Q s2 s3 -> adds Q s1 s3.
Proof.
  intros [(Ha & Hb & Hc & Hd) (evs1 & Ht1 & Hq1)] [(Ha' & Hb' & Hc' & Hd') (evs2 & Ht2 & Hq2)].
  split; [repeat split; congruence|].
  exists (evs1 ++ evs2)%list. split.
  - rewrite Ht2, Ht1, app_assoc. reflexivity.
  - apply Forall_app. split; assumption.
Qed.

Section Only.

Variable Q : Event -> Prop.

Lemma only_ret {A : Type} (a : A) : only Q (ret a).
Proof. intros s. apply adds_refl. Qed.

Lemma only_raise {A : Type} (e : Exn) : only Q (@raise A e).
Proof. intros s. apply adds_refl. Qed.

Lemma only_bind {A B : Type} (m : M A) (k : A -> M B) :
  only Q m -> (forall a, only Q (k a)) -> only Q (bind m k).
Proof.
  intros Hm Hk s. unfold bind. specialize (Hm s).
  destruct (m s) as [[a|e|] s1]; cbn [snd] in *; auto.
  eapply adds_trans; [exact Hm|apply Hk].
Qed.

Lemma only_emit (e : Event) : Q e -> only Q (emit e).
Proof.
  intros He s. split; [repeat split|].
  exists [e]. split; [reflexivity|repeat constructor; exact He].
Qed.

Lemma only_ask {A : Type} (q : list Event -> A) : only Q (ask q).
Proof. intros s. apply adds_refl. Qed.

Lemma only_fresh : only Q fresh.
Proof.
  intros s. split; [repeat split|].
  exists []. cbn. rewrite app_nil_r. split; constructor.
Qed.

Lemma only_lift {A : Type} (r : Exn + A) : only Q (lift r).
Proof. destruct r; [apply only_raise|apply only_ret]. Qed.

Lemma only_lift_opt (r : option Exn) : only Q (lift_opt r).
Proof. destruct r; [apply only_raise|apply only_ret]. Qed.

Lemma only_when (b : bool) (m : M unit) : only Q m -> only Q (when b m).
Proof. intros Hm. destruct b; [exact Hm|apply only_ret]. Qed.

Lemma only_out_of_fuel {A : Type} : only Q (fun s => (@OutOfFuel A, s)).
Proof. intros s. apply adds_refl. Qed.

Lemma only_with_open {A : Type} (W : World) (filename mode : string)
  (body : Handle -> M A) :
  (forall h, Q (EvOpen filename mode h)) ->
  (forall h, Q (EvClose h)) ->
  (forall h, only Q (body h)) ->
  only Q (with_open W filename mode body).
Proof.
  intros Hopen Hclose Hbody. unfold with_open, file_open.
  repeat (apply only_bind; [|intros ?]);
    auto using only_fresh, only_ask, only_lift_opt, only_emit, only_ret.
  intros s. specialize (Hbody a s).
  destruct (body a s) as [r s1]. cbn [snd] in *.
  eapply adds_trans; [exact Hbody|]. apply (only_emit (EvClose a)). apply Hclose.
Qed.

End Only.

(* ================================================================== *)
(** ** fetch: up to the response *)

Lemma neo_status_only (Q : Event -> Prop) (cfg : Config) (r g b : Z) :
  Q (EvNeo r g b) -> only Q (neo_status cfg r g b).
Proof. intros H. apply only_when, only_emit, H. Qed.

Lemma print_only (Q : Event -> Prop) (args : list PyVal) :
  Q (EvPrint args) -> only Q (print args).
Proof. apply only_emit. Qed.

Lemma requests_get_only (Q : Event -> Prop) (W : World) (url : string) (stream : bool) :
  Q (EvGet url stream) -> only Q (requests_get W url stream).
Proof.
  intros H. unfold requests_get.
  repeat (apply only_bind; [|intros ?]); auto using only_emit, only_ask, only_lift.
Qed.

Lemma connect_loop_only (Q : Event -> Prop) (W : World) (cfg : Config) :
  Q EvIsConnected -> Q EvConnect ->
  (forall args, Q (EvPrint args)) -> (forall r g b, Q (EvNeo r g b)) ->
  forall fuel, only Q (connect_loop W cfg fuel).
Proof.
  intros Hpoll Hconn Hprint Hneo.
  induction fuel as [|fuel IH]; cbn [connect_loop]; [apply only_out_of_fuel|].
  apply only_bind; [apply only_emit, Hpoll|intros _].
  apply only_bind; [apply only_ask|intros connected].
  destruct connected; [apply only_ret|].
  repeat (apply only_bind; [|intros ?]);
    auto using only_when, print_only, neo_status_only, only_emit, only_ask, only_lift_opt.
Qed.

Lemma Fake_Requests_only (Q : Event -> Prop) (W : World) (filename : string) :
  (forall h, Q (EvOpen filename "r" h)) -> (forall h, Q (EvRead h)) ->
  (forall h, Q (EvClose h)) ->
  only Q (Fake_Requests W filename).
Proof.
  intros Hopen Hread Hclose. unfold Fake_Requests.
  apply only_bind; [|intros ?; apply only_ret].
  apply only_with_open; auto. intros h.
  repeat (apply only_bind; [|intros ?]); auto using only_emit, only_ask, only_lift.
Qed.

(** One step of a proof that a computation emits only events of a
    given kind: follow the shape of the computation. *)
Ltac only_step :=
  lazymatch goal with
  | |- only _ (bind _ _) => apply only_bind; [|intros ?]
  | |- only _ (ret _) => apply only_ret
  | |- only _ (raise _) => apply only_raise
  | |- only _ gc_collect => apply only_ret
  | |- only _ (when _ _) => apply only_when
  | |- only _ (emit _) => apply only_emit
  | |- only _ (print _) => apply print_only
  | |- only _ (ask _) => apply only_ask
  | |- only _ fresh => apply only_fresh
  | |- only _ (lift _) => apply only_lift
  | |- only _ (lift_opt _) => apply only_lift_opt
  | |- only _ (neo_status _ _ _ _) => apply neo_status_only
  | |- only _ (requests_get _ _ _) => apply requests_get_only
  | |- only _ (connect_loop _ _ _) => apply connect_loop_only
  | |- only _ (Fake_Requests _ _) => apply Fake_Requests_only
  | |- only _ (if ?b then _ else _) => destruct b
  | |- only _ (match ?x with _ => _ end) => destruct x
  | |- forall _, _ => intro
  | |- _ = _ => reflexivity
  end.

(** Up to the response, [fetch] leaves the display alone and neither
    streams a download, nor writes a file, nor touches the background. *)
Lemma fetch_begin_no_image (W : World) (cfg : Config) (fuel : nat) :
  only (fun e => is_image_event e = false) (fetch_begin W cfg fuel).
Proof.
  unfold fetch_begin, get_response, _connect_esp. repeat only_step.
Qed.

Lemma only_ext {A : Type} (Q : Event -> Prop) (m m' : M A) :
  (forall s, m s = m' s) -> only Q m' -> only Q m.
Proof. intros Heq Hm s. rewrite Heq. apply Hm. Qed.

(** With the local file in use, the response is the local file. *)
Lemma get_response_local (W : World) (cfg : Config) (fuel : nat) (s : State) :
  _uselocal cfg = true ->
  get_response W cfg fuel s =
    (print [PStr "*** USING LOCALFILE FOR DATA - NOT INTERNET!!! ***"] ;;
     Fake_Requests W LOCALFILE) s.
Proof.
  intros Hlocal. unfold get_response. rewrite Hlocal. unfold bind.
  destruct (print _ s) as [[[]|e|] s1]; try reflexivity.
  destruct (Fake_Requests W LOCALFILE s1) as [[r|e|] s2]; reflexivity.
Qed.

(** With the local file in use, [fetch] reaches the response without
    polling or joining the access point and without any request. *)
Lemma fetch_begin_local_no_network (W : World) (cfg : Config) (fuel : nat) :
  _uselocal cfg = true ->
  only (fun e => is_network e = false) (fetch_begin W cfg fuel).
Proof.
  intros Hlocal. unfold fetch_begin.
  do 2 (apply only_bind; [repeat only_step|intros ?]).
  apply (only_ext _ _ _ (fun s => get_response_local W cfg fuel s Hlocal)).
  repeat only_step.
Qed.

(** What follows the response does not look at whether the local file is
    in use. *)
Lemma processing_ignores_uselocal (W : World) (cfg : Config) (b : bool) :
  extract W (with_uselocal b cfg) = extract W cfg /\
  fetch_image W (with_uselocal b cfg) = fetch_image W cfg /\
  finish W (with_uselocal b cfg) = finish W cfg.
Proof. repeat split. Qed.

(* ================================================================== *)
(** ** fetch: a body that is not JSON *)

Lemma is_kind_of (e : Exn) (k : ExnKind) : exn_kind e = k -> is_kind k e = true.
Proof. intros <-. unfold is_kind. destruct (exn_kind e); reflexivity. Qed.

Lemma is_kind_other (e : Exn) (k : ExnKind) : exn_kind e <> k -> is_kind k e = false.
Proof.
  intros Hne. unfold is_kind.
  destruct (exn_kind e), k; try reflexivity; exfalso; apply Hne; reflexivity.
Qed.

(** C3.  A value path or an image path is configured, the response [r]
    has arrived (leaving the object in state [s1]) and its body does not
    parse: the parser raises the [ValueError] [e].  Then [fetch] raises
    [e] to its caller; after the response the only events are the debug
    print of the body (in debug mode) and the print of the message with
    the raw body; the scene, the background group, the background file
    and the text slots are those of the start; and no streamed download,
    file write or background change was added to the trace. *)
Theorem fetch_parse_failure (W : World) (cfg : Config) (fuel : nat)
  (s s1 : State) (r : Response) (e : Exn) :
  truthy (_image_json_path cfg) || truthy (_json_path cfg) = true ->
  fetch_begin W cfg fuel s = (Ok r, s1) ->
  w_json W (resp_text r) = inl e ->
  exn_kind e = ValueError ->
  exists s',
    fetch W cfg fuel s = (Raise e, s') /\
    trace s' =
      (trace s1 ++
       (if _debug cfg then [EvPrint [PStr (resp_text r)]] else []) ++
       [EvPrint [PStr "Couldn't parse json: "; PStr (resp_text r)]])%list /\
    splash s' = splash s /\ _bg_group s' = _bg_group s /\
    _bg_file s' = _bg_file s /\ _text s' = _text s /\
    (forall ev, In ev (trace s') -> is_image_event ev = true -> In ev (trace s)).
Proof.
  intros Hpaths Hbegin Hjson Hkind.
  destruct (fetch_begin_no_image W cfg fuel s) as [(Hsplash & Hbg & Hfile & Htext) (evs & Htrace & Hevs)].
  rewrite Hbegin in *. cbn [snd] in *.
  unfold fetch. unfold bind at 1. rewrite Hbegin.
  unfold extract, parse_json. rewrite Hpaths, Hjson.
  destruct (_debug cfg); run; unfold is_kind; rewrite Hkind; run;
    (eexists; split; [reflexivity|]); cbn;
    rewrite <- ?app_assoc; cbn [app];
    (repeat split; auto);
    intros ev Hin Himage; rewrite Htrace in Hin;
    repeat (apply in_app_or in Hin; destruct Hin as [Hin|Hin]);
    auto;
    try (rewrite Forall_forall in Hevs; rewrite (Hevs _ Hin) in Himage; discriminate);
    repeat (destruct Hin as [<-|Hin]; [discriminate|]); destruct Hin.
Qed.

Lemma fetch_parse_failure_witness :
  exists s',
    fetch (Scenario.world (inl Scenario.parse_error)) (Scenario.config false PNone) 1
      Scenario.constructed = (Raise Scenario.parse_error, s') /\
    trace s' =
      (trace Scenario.after_response ++
       (if _debug (Scenario.config false PNone)
        then [EvPrint [PStr (resp_text (Scenario.reply Scenario.body))]] else []) ++
       [EvPrint [PStr "Couldn't parse json: ";
                 PStr (resp_text (Scenario.reply Scenario.body))]])%list /\
    splash s' = splash Scenario.constructed /\
    _bg_group s' = _bg_group Scenario.constructed /\
    _bg_file s' = _bg_file Scenario.constructed /\
    _text s' = _text Scenario.constructed /\
    (forall ev, In ev (trace s') -> is_image_event ev = true ->
       In ev (trace Scenario.constructed)).
Proof.
  apply (fetch_parse_failure (Scenario.world (inl Scenario.parse_error))
           (Scenario.config false PNone) 1 Scenario.constructed
           Scenario.after_response (Scenario.reply Scenario.body) Scenario.parse_error);
    vm_compute; reflexivity.
Defined.

(* ================================================================== *)
(** ** fetch: the image step *)

(** C2, as the code has it.  The response has arrived, extraction gave
    [values] and a truthy [url], and the image step (conversion URL,
    download to the cache, [set_background] of the cache) raises [e].
    If [e] is a [ValueError] whose first argument is a string, [fetch]
    catches it: it prints the message, calls [set_background] with the
    default background and goes on with the callback and the text slots.
    If [e] is of any other kind, [fetch] raises it to its caller from the
    state in which the step failed. *)
Theorem fetch_image_value_error_caught (W : World) (cfg : Config) (fuel : nat)
  (s s1 s2 s3 : State) (r : Response) (values url : PyVal) (e : Exn) :
  fetch_begin W cfg fuel s = (Ok r, s1) ->
  extract W cfg r s1 = (Ok (values, url), s2) ->
  truthy url = true ->
  image_body W cfg url s2 = (Raise e, s3) ->
  (forall msg rest,
     exn_kind e = ValueError -> exn_args e = PStr msg :: rest ->
     fetch W cfg fuel s =
       (set_background W (_default_bg cfg) ;; finish W cfg values)
         (set_trace
            (trace s3 ++ [EvPrint [PStr ("Error displaying cached image. " ++ msg)]])
            s3)) /\
  (exn_kind e <> ValueError -> fetch W cfg fuel s = (Raise e, s3)).
Proof.
  intros Hbegin Hextract Hurl Hbody.
  assert (Hfetch : fetch W cfg fuel s =
            (fetch_image W cfg url ;; finish W cfg values) s2).
  { unfold fetch. unfold bind at 1. rewrite Hbegin.
    unfold bind at 1. rewrite Hextract. reflexivity. }
  rewrite Hfetch. clear Hfetch. split.
  - intros msg rest Hkind Hargs.
    unfold fetch_image. rewrite Hurl.
    unfold bind at 1. unfold try_except. rewrite Hbody.
    rewrite (is_kind_of e ValueError Hkind).
    unfold exn_arg0. rewrite Hargs. reflexivity.
  - intros Hkind.
    unfold fetch_image. rewrite Hurl.
    unfold bind at 1. unfold try_except. rewrite Hbody.
    rewrite (is_kind_other e ValueError Hkind). reflexivity.
Qed.

Lemma fetch_image_value_error_caught_witness :
  (forall msg rest,
     exn_kind Scenario.bad_bitmap = ValueError ->
     exn_args Scenario.bad_bitmap = PStr msg :: rest ->
     fetch (Scenario.world_bad_bitmap (inr Scenario.doc_with_photo) Scenario.bad_bitmap)
       (Scenario.config false (PList [PStr "url"])) 1 Scenario.constructed =
       (set_background
          (Scenario.world_bad_bitmap (inr Scenario.doc_with_photo) Scenario.bad_bitmap)
          (_default_bg (Scenario.config false (PList [PStr "url"]))) ;;
        finish (Scenario.world_bad_bitmap (inr Scenario.doc_with_photo) Scenario.bad_bitmap)
          (Scenario.config false (PList [PStr "url"])) (PList [PStr "1234"]))
         (set_trace
            (trace Scenario.bitmap_failed ++
             [EvPrint [PStr ("Error displaying cached image. " ++ msg)]])
            Scenario.bitmap_failed)) /\
  (exn_kind Scenario.bad_bitmap <> ValueError ->
   fetch (Scenario.world_bad_bitmap (inr Scenario.doc_with_photo) Scenario.bad_bitmap)
     (Scenario.config false (PList [PStr "url"])) 1 Scenario.constructed =
     (Raise Scenario.bad_bitmap, Scenario.bitmap_failed)).
Proof.
  apply (fetch_image_value_error_caught
           (Scenario.world_bad_bitmap (inr Scenario.doc_with_photo) Scenario.bad_bitmap)
           (Scenario.config false (PList [PStr "url"])) 1
           Scenario.constructed Scenario.bitmap_begin Scenario.bitmap_extracted
           Scenario.bitmap_failed (Scenario.reply Scenario.body)
           (PList [PStr "1234"]) (PStr Scenario.photo) Scenario.bad_bitmap);
    vm_compute; reflexivity.
Defined.

(** On the device whose cached bitmap does not decode, the fetch ends
    well: the default background is shown and the text slot is drawn. *)
Example fetch_bad_bitmap_recovers :
  fst (fetch (Scenario.world_bad_bitmap (inr Scenario.doc_with_photo) Scenario.bad_bitmap)
         (Scenario.config false (PList [PStr "url"])) 1 Scenario.constructed)
  = Ok (PStr "1234") /\
  In (EvOpen "/default.bmp" "rb" 5%nat)
     (trace (snd (fetch (Scenario.world_bad_bitmap (inr Scenario.doc_with_photo)
                           Scenario.bad_bitmap)
                    (Scenario.config false (PList [PStr "url"])) 1 Scenario.constructed))).
Proof. vm_compute. split; [reflexivity|]. repeat (try (left; reflexivity); right). Qed.

(** C2, as the claim states it, fails: an image URL is extracted, the
    streamed request for the image fails with a [RuntimeError], and
    [fetch] raises that error to its caller without restoring the default
    background. *)
Lemma fetch_image_error_propagates :
  fst (fetch (Scenario.world_stream_fails (inr Scenario.doc_with_photo) Scenario.send_failed)
         (Scenario.config false (PList [PStr "url"])) 1 Scenario.constructed)
  = Raise Scenario.send_failed /\
  In (EvPrint [PStr "original URL:"; PStr Scenario.photo])
     (trace (snd (fetch (Scenario.world_stream_fails (inr Scenario.doc_with_photo)
                           Scenario.send_failed)
                    (Scenario.config false (PList [PStr "url"])) 1 Scenario.constructed))) /\
  ~ In (EvPrint [PStr "Set background to "; PStr "/default.bmp"])
     (trace (snd (fetch (Scenario.world_stream_fails (inr Scenario.doc_with_photo)
                           Scenario.send_failed)
                    (Scenario.config false (PList [PStr "url"])) 1 Scenario.constructed))).
Proof.
  vm_compute. split; [reflexivity|]. split.
  - repeat (try (left; reflexivity); right).
  - intros H. repeat (destruct H as [H|H]; [discriminate H|]). exact H.
Qed.

(* ================================================================== *)
(** ** fetch: a missing image key *)

(** A missing key that is a string: the message is printed, the default
    background is set and no image URL is kept. *)
Lemma extract_image_url_missing_str_key (W : World) (cfg : Config)
  (json_out : PyVal) (k : string) (rest : list PyVal) (s : State) :
  truthy (_image_json_path cfg) = true ->
  _json_traverse json_out (_image_json_path cfg) = inl (mkExn KeyError (PStr k :: rest)) ->
  extract_image_url W cfg json_out s =
    (set_background W (_default_bg cfg) ;; ret PNone)
      (set_trace
         (trace s ++ [EvPrint [PStr ("Error finding image data. '" ++ k ++ "' not found.")]])
         s).
Proof.
  intros Hpath Hmissing. unfold extract_image_url. rewrite Hpath, Hmissing.
  reflexivity.
Qed.

(** A missing key that is an integer: building the message fails, and
    the [TypeError] leaves [fetch] before the default background is set. *)
Lemma extract_image_url_missing_int_key (W : World) (cfg : Config)
  (json_out : PyVal) (i : Z) (rest : list PyVal) (s : State) :
  truthy (_image_json_path cfg) = true ->
  _json_traverse json_out (_image_json_path cfg) = inl (mkExn KeyError (PInt i :: rest)) ->
  extract_image_url W cfg json_out s =
    (Raise (mkExn TypeError [PStr "can't convert object to str implicitly"]), s).
Proof.
  intros Hpath Hmissing. unfold extract_image_url. rewrite Hpath, Hmissing.
  reflexivity.
Qed.

(** With the key [x] missing from the document, the fetch prints the
    key, shows the default background, calls the callback, draws the text
    slot and returns the value. *)
Example fetch_missing_str_key :
  fetch (Scenario.world (inr Scenario.doc_empty_images))
    (Scenario.config false (PList [PStr "images"; PStr "x"])) 1 Scenario.constructed
  = (Ok (PStr "1234"),
     {| splash := [Group 0; TextArea 5 "1,234" 8421504 10 20];
        _bg_group := [Sprite 4 3%nat];
        _bg_file := Some 3%nat;
        _text := [Some (TextArea 5 "1,234" 8421504 10 20)];
        next_obj := 6%nat;
        trace :=
          [EvIsConnected; EvPrint [PStr "Retrieving data..."];
           EvGet "http://host/data.json" false;
           EvPrint [PStr "Reply is OK!"];
           EvPrint [PStr "Error finding image data. 'x' not found."];
           EvPrint [PStr "Set background to "; PStr "/default.bmp"];
           EvBgGroup []; EvClose 1%nat; EvOpen "/default.bmp" "rb" 3%nat;
           EvBgGroup [Sprite 4 3%nat]; EvRefresh; EvWaitFrame;
           EvCallback (PList [PStr "1234"]);
           EvPrint [PStr "Making text area with string:"; PStr "1,234"]] |}).
Proof. vm_compute. reflexivity. Qed.

(** C4.  The image path is [images, 0] and the document holds an empty
    object under [images], so the traversal fails with the missing key
    [0].  The fetch then raises a [TypeError]: nothing is printed about
    the key, the background is not changed, the callback is not called
    and no text slot is drawn. *)
Theorem fetch_missing_int_key_raises :
  _json_traverse Scenario.doc_empty_images (PList [PStr "images"; PInt 0])
  = inl (mkExn KeyError [PInt 0]) /\
  fetch (Scenario.world (inr Scenario.doc_empty_images))
    (Scenario.config false (PList [PStr "images"; PInt 0])) 1 Scenario.constructed
  = (Raise (mkExn TypeError [PStr "can't convert object to str implicitly"]),
     {| splash := splash Scenario.constructed;
        _bg_group := _bg_group Scenario.constructed;
        _bg_file := _bg_file Scenario.constructed;
        _text := _text Scenario.constructed;
        next_obj := next_obj Scenario.constructed;
        trace :=
          [EvIsConnected; EvPrint [PStr "Retrieving data..."];
           EvGet "http://host/data.json" false;
           EvPrint [PStr "Reply is OK!"]] |}).
Proof. vm_compute. split; reflexivity. Qed.

(* ================================================================== *)
(** ** fetch: the local file and the network *)

(** C1.  The local file is in use and the document names an image.  No
    event of the network precedes the extraction, but the image step
    then issues a streamed HTTP GET for the converted image; on a device
    whose network interface was never set up the request fails and the
    error leaves [fetch]. *)
Theorem fetch_local_requests_image :
  _uselocal (Scenario.config true (PList [PStr "url"])) = true /\
  fetch (Scenario.world_stream_fails (inr Scenario.doc_with_photo) Scenario.no_interface)
    (Scenario.config true (PList [PStr "url"])) 0 Scenario.constructed
  = (Raise Scenario.no_interface,
     {| splash := splash Scenario.constructed;
        _bg_group := _bg_group Scenario.constructed;
        _bg_file := _bg_file Scenario.constructed;
        _text := _text Scenario.constructed;
        next_obj := 4%nat;
        trace :=
          [EvPrint [PStr "*** USING LOCALFILE FOR DATA - NOT INTERNET!!! ***"];
           EvOpen "local.txt" "r" 3%nat; EvRead 3%nat; EvClose 3%nat;
           EvPrint [PStr "original URL:"; PStr "http://host/pic.jpg"];
           EvPrint [PStr "convert URL:";
                    PStr (IMAGE_CONVERTER_SERVICE ++ "http://host/pic.jpg")];
           EvPrint [PStr "Fetching stream from";
                    PStr (IMAGE_CONVERTER_SERVICE ++ "http://host/pic.jpg")];
           EvGet (IMAGE_CONVERTER_SERVICE ++ "http://host/pic.jpg") true] |}).
Proof. vm_compute. split; reflexivity. Qed.

(** The same configuration on a device that answers the request: the
    image is downloaded over the network although the local file is in
    use. *)
Example fetch_local_downloads_image :
  In (EvGet (IMAGE_CONVERTER_SERVICE ++ Scenario.photo) true)
     (trace (snd (fetch (Scenario.world (inr Scenario.doc_with_photo))
                    (Scenario.config true (PList [PStr "url"])) 0 Scenario.constructed))) /\
  fst (fetch (Scenario.world (inr Scenario.doc_with_photo))
         (Scenario.config true (PList [PStr "url"])) 0 Scenario.constructed)
  = Ok (PStr "1234").
Proof. vm_compute. split; [|reflexivity]. repeat (try (left; reflexivity); right). Qed.

(* ================================================================== *)
(** ** More on wrap_nicely *)

Lemma append_assoc (a b c : string) : (a ++ b) ++ c = a ++ (b ++ c).
Proof. induction a as [|x a IH]; cbn; [reflexivity|rewrite IH; reflexivity]. Qed.

Lemma append_empty_r (a : string) : a ++ "" = a.
Proof. induction a as [|x a IH]; cbn; [reflexivity|rewrite IH; reflexivity]. Qed.

Lemma length_append (a b : string) :
  String.length (a ++ b) = (String.length a + String.length b)%nat.
Proof. induction a as [|x a IH]; cbn; [reflexivity|rewrite IH; reflexivity]. Qed.

Lemma join_cons (sep p : string) (rest : list string) :
  rest <> [] -> join sep (p :: rest) = p ++ sep ++ join sep rest.
Proof. destruct rest; [contradiction|reflexivity]. Qed.

Lemma join_snoc (sep : string) (l : list string) (x : string) :
  l <> [] -> join sep (l ++ [x]) = join sep l ++ sep ++ x.
Proof.
  induction l as [|p l IH]; [contradiction|intros _].
  destruct l as [|q l]; [reflexivity|].
  change ((p :: q :: l) ++ [x])%list with (p :: ((q :: l) ++ [x]))%list.
  rewrite join_cons by (destruct l; discriminate).
  rewrite IH by discriminate.
  rewrite (join_cons sep p (q :: l)) by discriminate.
  rewrite !append_assoc. reflexivity.
Qed.

(** Splitting at spaces and joining with spaces gives the text back. *)
Lemma join_split_space (s : string) : join " " (split_space s) = s.
Proof.
  induction s as [|c rest IH]; [reflexivity|].
  cbn [split_space]. destruct (Ascii.eqb_spec c " ") as [->|Hc].
  - rewrite join_cons by apply split_space_not_nil. rewrite IH. reflexivity.
  - destruct (split_space rest) as [|w ws] eqn:Hsplit;
      [exfalso; exact (split_space_not_nil rest Hsplit)|].
    destruct ws as [|w' ws].
    + cbn in *. rewrite IH. reflexivity.
    + rewrite join_cons by discriminate.
      rewrite join_cons in IH by discriminate.
      cbn. rewrite <- IH. reflexivity.
Qed.

Lemma spaced_join (ws : list string) :
  ws <> [] -> spaced ws = " " ++ join " " ws.
Proof.
  induction ws as [|w ws IH]; [contradiction|intros _].
  destruct ws as [|w' ws].
  - cbn. rewrite append_empty_r. reflexivity.
  - rewrite join_cons by discriminate. cbn [spaced] in *.
    rewrite IH by discriminate. reflexivity.
Qed.

Lemma wrap_step_join (m : Z) (lines : list string) (line w : string) :
  join " " (fst (wrap_step m (lines, line) w) ++ [snd (wrap_step m (lines, line) w)])
  = join " " (lines ++ [line]) ++ " " ++ w.
Proof.
  destruct (wrap_step_cases m lines line w) as [[_ ->]|[_ ->]]; cbn [fst snd].
  - destruct lines as [|l0 lines]; [reflexivity|].
    rewrite !join_snoc by discriminate. rewrite !append_assoc. reflexivity.
  - rewrite join_snoc; [reflexivity|]. destruct lines; discriminate.
Qed.

Lemma wrap_fold_join (m : Z) :
  forall (ws : list string) (acc : list string * string),
    join " " (fst (fold_left (wrap_step m) ws acc)
              ++ [snd (fold_left (wrap_step m) ws acc)])
    = join " " (fst acc ++ [snd acc]) ++ spaced ws.
Proof.
  induction ws as [|w ws IH]; intros [lines line]; cbn [fold_left spaced fst snd].
  - rewrite append_empty_r. reflexivity.
  - rewrite IH.
    destruct (wrap_step m (lines, line) w) as [lines' line'] eqn:Hstep.
    pose proof (wrap_step_join m lines line w) as Hjoin.
    rewrite Hstep in Hjoin. cbn [fst snd] in *. rewrite Hjoin.
    rewrite !append_assoc. reflexivity.
Qed.

(** X1.  No character of the text is lost or moved by [wrap_nicely]:
    the returned lines, joined with single spaces, are the text behind
    one leading space; the only exception is a last line that is empty,
    which is dropped, and then the join lacks the final space. *)
Theorem wrap_nicely_keeps_text (text : string) (m : Z) :
  join " " (wrap_nicely text m) = " " ++ text \/
  join " " (wrap_nicely text m) ++ " " = " " ++ text.
Proof.
  pose proof (wrap_fold_join m (split_space text) ([], "")) as Hjoin.
  rewrite spaced_join in Hjoin by apply split_space_not_nil.
  rewrite join_split_space in Hjoin. cbn [fst snd app join] in Hjoin.
  destruct (split_space text) as [|w0 ws] eqn:Hsplit;
    [exfalso; exact (split_space_not_nil text Hsplit)|].
  unfold wrap_nicely. rewrite Hsplit.
  cbn [fold_left] in *.
  destruct (wrap_fold_first_line m ws (wrap_step m ([], "") w0)) as [_ Hne].
  - destruct (wrap_step_cases m [] "" w0) as [[_ ->]|[_ ->]]; unfold first_line;
      cbn [fst snd app]; [right; exists w0; reflexivity|left; reflexivity].
  - destruct (wrap_step_cases m [] "" w0) as [[_ ->]|[_ ->]]; cbn [fst snd app];
      discriminate.
  - destruct (fold_left (wrap_step m) ws (wrap_step m ([], "") w0)) as [lines line].
    cbn [fst snd] in *.
    destruct (String.eqb_spec line "") as [->|Hline].
    + right. cbn [truthy String.eqb negb].
      destruct lines as [|l0 lines]; [exfalso; exact (Hne eq_refl eq_refl)|].
      rewrite join_snoc in Hjoin by discriminate. exact Hjoin.
    + left. rewrite (truthy_nonempty line Hline). exact Hjoin.
Qed.

Lemma wrap_fold_fits (m : Z) :
  forall (ws : list string) (line : string),
    Z.of_nat (String.length (line ++ spaced ws)) <= m ->
    fold_left (wrap_step m) ws ([], line) = ([], line ++ spaced ws).
Proof.
  induction ws as [|w ws IH]; intros line Hfit; cbn [fold_left spaced] in *.
  - rewrite append_empty_r. reflexivity.
  - destruct (wrap_step_cases m [] line w) as [[_ ->]|[Hover _]].
    + rewrite IH; rewrite !append_assoc in *; [reflexivity|exact Hfit].
    + exfalso. rewrite !length_append in *. cbn [String.length] in *. lia.
Qed.

(** X2.  A text that is shorter than the width comes back as one line:
    the text behind a space. *)
Theorem wrap_nicely_fits (text : string) (m : Z) :
  Z.of_nat (String.length text) + 1 <= m ->
  wrap_nicely text m = [" " ++ text].
Proof.
  intros Hfit. unfold wrap_nicely.
  assert (Hspaced : spaced (split_space text) = " " ++ text).
  { rewrite spaced_join by apply split_space_not_nil.
    rewrite join_split_space. reflexivity. }
  rewrite (wrap_fold_fits m (split_space text) "").
  - cbn [append]. rewrite Hspaced. reflexivity.
  - cbn [append]. rewrite Hspaced. cbn [append String.length]. lia.
Qed.

Lemma wrap_nicely_fits_witness :
  wrap_nicely "Hello there" 20 = [" " ++ "Hello there"].
Proof. apply (wrap_nicely_fits "Hello there" 20). vm_compute. discriminate. Defined.

(* ================================================================== *)
(** ** More on _json_traverse *)

Lemma traverse_keys_app (p q : list PyVal) :
  forall doc,
    traverse_keys doc (p ++ q) = and_then (traverse_keys doc p) (fun v => traverse_keys v q).
Proof.
  induction p as [|k p IH]; intros doc; cbn [app traverse_keys and_then]; [reflexivity|].
  destruct (getitem doc k); [reflexivity|apply IH].
Qed.

(** X3.  Following a path made of two parts is following the first part
    and then, from where it arrives, the second; an error on the first
    part is the error of the whole. *)
Theorem json_traverse_app (doc : PyVal) (p q : list PyVal) :
  _json_traverse doc (PList (p ++ q)) =
  and_then (_json_traverse doc (PList p)) (fun v => _json_traverse v (PList q)).
Proof. unfold _json_traverse. cbn [py_iter]. apply traverse_keys_app. Qed.

Lemma seq_index_last {A : Type} (n : nat) (x y : A) (pad : A) :
  seq_index (repeat pad n ++ [x]) (Z.of_nat n) = Some x.
Proof.
  unfold seq_index. rewrite length_app, repeat_length. cbn [List.length].
  assert (H1 : (0 <=? Z.of_nat n) = true) by (apply Z.leb_le; lia).
  assert (H2 : (Z.of_nat n <? Z.of_nat (n + 1)) = true) by (apply Z.ltb_lt; lia).
  rewrite H1, H2. cbn [andb]. rewrite Nat2Z.id.
  rewrite nth_error_app2 by (rewrite repeat_length; lia).
  rewrite repeat_length, Nat.sub_diag. reflexivity.
Qed.

(** X4.  Building the document that holds [v] at the end of a path of
    string keys and non-negative indices, and then following the path,
    gives [v] back. *)
Theorem json_traverse_nest (keys : list PyVal) (v : PyVal) :
  forallb plain_key keys = true ->
  _json_traverse (nest keys v) (PList keys) = inr v.
Proof.
  unfold _json_traverse. cbn [py_iter].
  induction keys as [|k keys IH]; intros Hkeys; [reflexivity|].
  cbn [forallb] in Hkeys. apply andb_prop in Hkeys. destruct Hkeys as [Hk Hkeys].
  destruct k as [| |i|s| | |]; try discriminate Hk; cbn [nest traverse_keys].
  - cbn in Hk. apply Z.leb_le in Hk.
    unfold getitem.
    replace i with (Z.of_nat (Z.to_nat i)) at 2 by lia.
    rewrite (seq_index_last (Z.to_nat i) (nest keys v) PNone PNone). apply IH, Hkeys.
  - cbn [getitem assoc]. rewrite String.eqb_refl. apply IH, Hkeys.
Qed.

Lemma json_traverse_nest_witness :
  _json_traverse (nest [PStr "items"; PInt 2; PStr "url"] (PStr "x"))
    (PList [PStr "items"; PInt 2; PStr "url"]) = inr (PStr "x").
Proof.
  apply (json_traverse_nest [PStr "items"; PInt 2; PStr "url"] (PStr "x")).
  reflexivity.
Defined.

Lemma traverse_all_aligned (doc : PyVal) :
  forall (paths vs : list PyVal),
    traverse_all doc paths = inr vs ->
    List.length vs = List.length paths /\
    forall i path, nth_error paths i = Some path ->
      exists v, nth_error vs i = Some v /\ _json_traverse doc path = inr v.
Proof.
  induction paths as [|p paths IH]; intros vs Hall; cbn [traverse_all] in Hall.
  - injection Hall as <-. split; [reflexivity|]. intros [|i] path H; discriminate H.
  - destruct (_json_traverse doc p) as [e|v] eqn:Hp; [discriminate|].
    destruct (traverse_all doc paths) as [e|vs'] eqn:Hrest; [discriminate|].
    injection Hall as <-. destruct (IH vs' eq_refl) as [Hlen Hnth].
    split; [cbn; rewrite Hlen; reflexivity|].
    intros [|i] path Hi; cbn in Hi.
    + injection Hi as <-. exists v. split; [reflexivity|exact Hp].
    + apply Hnth. exact Hi.
Qed.

(** X5.  With value paths configured, the extracted values are a list
    with one value per path, in the order of the paths, each being what
    the traversal of its path gives; the extraction changes nothing in
    the object. *)
Theorem extract_values_aligned (W : World) (cfg : Config) (r : Response)
  (json_out values : PyVal) (paths : list PyVal) (s s' : State) :
  truthy (_json_path cfg) = true ->
  py_iter (_json_path cfg) = inr paths ->
  extract_values W cfg r json_out s = (Ok values, s') ->
  s' = s /\
  exists vs, values = PList vs /\
    List.length vs = List.length paths /\
    forall i path, nth_error paths i = Some path ->
      exists v, nth_error vs i = Some v /\ _json_traverse json_out path = inr v.
Proof.
  intros Hpath Hiter. unfold extract_values. rewrite Hpath, Hiter. run.
  destruct (traverse_all json_out paths) as [e|vs] eqn:Hall; run; [discriminate|].
  intros Hok. injection Hok as <- <-. split; [reflexivity|].
  exists vs. split; [reflexivity|]. apply (traverse_all_aligned json_out paths vs Hall).
Qed.

Lemma extract_values_aligned_witness :
  Scenario.constructed = Scenario.constructed /\
  exists vs, PList [PStr "1234"] = PList vs /\
    List.length vs = List.length [PList [PStr "title"]] /\
    forall i path, nth_error [PList [PStr "title"]] i = Some path ->
      exists v, nth_error vs i = Some v /\
                _json_traverse Scenario.doc_with_photo path = inr v.
Proof.
  apply (extract_values_aligned (Scenario.world (inr Scenario.doc_with_photo))
           (Scenario.config false PNone) (Scenario.reply Scenario.body)
           Scenario.doc_with_photo (PList [PStr "1234"]) [PList [PStr "title"]]
           Scenario.constructed Scenario.constructed);
    reflexivity.
Defined.

(* ================================================================== *)
(** ** _connect_esp *)

Lemma ends_with_from (t t1 t' : list Event) (e : Event) (mid : list Event) :
  t1 = (t ++ mid)%list ->
  (exists evs, t' = (t1 ++ evs ++ [e])%list) ->
  exists evs, t' = (t ++ evs ++ [e])%list.
Proof.
  intros -> [evs ->]. exists (mid ++ evs)%list. rewrite <- !app_assoc. reflexivity.
Qed.

Lemma connect_loop_connected (W : World) (cfg : Config) :
  forall (fuel : nat) (s s' : State),
    connect_loop W cfg fuel s = (Ok tt, s') ->
    w_is_connected W (trace s') = true /\
    exists evs, trace s' = (trace s ++ evs ++ [EvIsConnected])%list.
Proof.
  induction fuel as [|fuel IH]; intros s s' Hrun; cbn [connect_loop] in Hrun;
    [discriminate|].
  revert Hrun. run.
  destruct (w_is_connected W (trace s ++ [EvIsConnected])) eqn:Hpoll.
  - intros Hrun. injection Hrun as <-. cbn. split; [exact Hpoll|].
    exists []. reflexivity.
  - unfold neo_status. destruct (_debug cfg), (neopix cfg); run;
      match goal with
      | |- context [w_connect W ?tr] => destruct (w_connect W tr); run
      end;
      try discriminate;
      intros Hrun; apply IH in Hrun; destruct Hrun as [Hconn Hevs];
      (split; [exact Hconn|]);
      (eapply ends_with_from; [|exact Hevs]);
      cbn; repeat rewrite <- app_assoc; cbn [app]; reflexivity.
Qed.

(** X6.  [_connect_esp] returns only when the coprocessor has just
    reported that it is connected: the last event is the poll, and its
    answer was yes. *)
Theorem connect_esp_connected (W : World) (cfg : Config) (fuel : nat) (s s' : State) :
  _connect_esp W cfg fuel s = (Ok tt, s') ->
  w_is_connected W (trace s') = true /\
  exists evs, trace s' = (trace s ++ evs ++ [EvIsConnected])%list.
Proof.
  unfold _connect_esp, neo_status. destruct (neopix cfg); run; intros Hrun;
    apply connect_loop_connected in Hrun; destruct Hrun as [Hconn Hevs];
    (split; [exact Hconn|]);
    (eapply ends_with_from; [|exact Hevs]);
    cbn; first [reflexivity|symmetry; apply app_nil_r].
Qed.

(* ================================================================== *)
(** ** wget: the file is closed *)

Lemma same_display_refl (s : State) : same_display s s.
Proof. repeat split. Qed.

Lemma same_display_trans (s1 s2 s3 : State) :
  same_display s1 s2 -> same_display s2 s3 -> same_display s1 s3.
Proof.
  intros (Ha & Hb & Hc & Hd) (Ha' & Hb' & Hc' & Hd'). repeat split; congruence.
Qed.

Lemma open_after_no_file (evs : list Event) (opened : list Handle) :
  Forall not_file_event evs -> open_after evs opened = opened.
Proof.
  induction 1 as [|e evs He _ IH]; [reflexivity|].
  destruct e; cbn in *; try contradiction; exact IH.
Qed.

Lemma only_tidy {A : Type} (m : M A) : only not_file_event m -> tidy m.
Proof.
  intros Hm s. destruct (Hm s) as [Hdisp (evs & Htrace & Hevs)].
  split; [exact Hdisp|]. exists evs. split; [exact Htrace|].
  apply open_after_no_file, Hevs.
Qed.

Lemma tidy_bind {A B : Type} (m : M A) (k : A -> M B) :
  tidy m -> (forall a, tidy (k a)) -> tidy (bind m k).
Proof.
  intros Hm Hk s. unfold bind. specialize (Hm s).
  destruct (m s) as [[a|e|] s1]; cbn [snd] in *; auto.
  destruct Hm as [Hd1 (evs1 & Ht1 & Ho1)].
  destruct (Hk a s1) as [Hd2 (evs2 & Ht2 & Ho2)].
  split; [eapply same_display_trans; eassumption|].
  exists (evs1 ++ evs2)%list. split.
  - rewrite Ht2, Ht1, app_assoc. reflexivity.
  - rewrite open_after_app, Ho1. exact Ho2.
Qed.

Lemma tidy_with_open {A : Type} (W : World) (filename mode : string)
  (body : Handle -> M A) :
  (forall h, only not_file_event (body h)) ->
  tidy (with_open W filename mode body).
Proof.
  intros Hbody s. unfold with_open, file_open. run.
  destruct (w_open W (trace s) filename mode) as [e|]; run.
  - split; [repeat split|]. exists []. rewrite app_nil_r. split; reflexivity.
  - match goal with
    | |- context [body ?h ?st] =>
        destruct (Hbody h st) as [Hdisp (evs & Htrace & Hevs)];
        destruct (body h st) as [r s1]
    end.
    cbn in *. split.
    + destruct Hdisp as (Ha & Hb & Hc & Hd). repeat split; assumption.
    + exists (EvOpen filename mode (next_obj s) :: evs ++ [EvClose (next_obj s)])%list.
      split.
      * rewrite Htrace, <- !app_assoc. reflexivity.
      * cbn [open_after]. rewrite open_after_app, (open_after_no_file evs) by exact Hevs.
        cbn. destruct (Nat.eq_dec (next_obj s) (next_obj s)); [reflexivity|contradiction].
Qed.

Lemma wget_chunks_no_file (W : World) (cfg : Config) (file : Handle) (content_length : Z) :
  forall (chunks : list (Exn + string)) (remaining : Z),
    only not_file_event (wget_chunks W cfg file content_length chunks remaining).
Proof.
  induction chunks as [|[e|i] chunks IH]; intros remaining; cbn [wget_chunks].
  - apply only_ret.
  - apply only_raise.
  - repeat first
      [ apply IH
      | match goal with |- not_file_event _ => exact I end
      | only_step ].
Qed.

(** X7.  However [wget] ends (the request fails, the header is missing,
    a write fails, or all goes well), it has not touched the display and
    has closed the file it opened: replaying the events of the call from
    no open file ends with no open file. *)
Theorem wget_closes_file (W : World) (cfg : Config) (url filename : string) (s : State) :
  same_display s (snd (wget W cfg url filename s)) /\
  exists evs,
    trace (snd (wget W cfg url filename s)) = (trace s ++ evs)%list /\
    open_after evs [] = [].
Proof.
  revert s. change (tidy (wget W cfg url filename)). unfold wget.
  repeat first
    [ apply tidy_with_open; intros ?; apply wget_chunks_no_file
    | apply tidy_bind; [|intros ?]
    | apply only_tidy;
      repeat first [ match goal with |- not_file_event _ => exact I end | only_step ] ].
Qed.

(* ================================================================== *)
(** ** set_background: what is shown afterwards *)

(** X8.  When [set_background] succeeds on a file name, the background
    group holds exactly one sprite, made from the file that was just
    opened for reading under that name and that is now the recorded
    background file; the scene and the text slots are as before. *)
Theorem set_background_shows (W : World) (name : string) (s s' : State) :
  truthy (PStr name) = true ->
  (List.length (_bg_group s) <= 1)%nat ->
  set_background W (Some name) s = (Ok tt, s') ->
  exists id h,
    _bg_group s' = [Sprite id h] /\
    _bg_file s' = Some h /\
    In (EvOpen name "rb" h) (trace s') /\
    splash s' = splash s /\ _text s' = _text s.
Proof.
  intros Hname Hlen.
  unfold set_background, bg_group_pop, bg_group_append, file_open. run.
  change (negb (String.eqb name "")) with (truthy (PStr name)). rewrite Hname. run.
  repeat case_step.
  all: try discriminate.
  all: intros Hrun; injection Hrun as <-; cbn.
  all: try (apply list_pop_some in Hpop; rewrite Hpop in Hlen;
            rewrite length_app in Hlen; cbn in Hlen).
  all: try (apply list_pop_none in Hpop).
  all: try (exfalso; lia).
  all: try (destruct l; [|cbn in Hlen; lia]); rewrite ?Hpop; cbn [app].
  all: do 2 eexists; repeat split.
  all: repeat rewrite <- app_assoc; cbn [app]; apply in_or_app; right; cbn; auto 10.
Qed.

(** X9.  When [set_background] fails, whatever the reason, no background
    is shown any more: the sprite that was there has been removed before
    the new file was touched.  The scene and the text slots are as
    before. *)
Theorem set_background_failure_blank (W : World) (filename : option string)
  (s s' : State) (e : Exn) :
  (List.length (_bg_group s) <= 1)%nat ->
  set_background W filename s = (Raise e, s') ->
  _bg_group s' = [] /\ splash s' = splash s /\ _text s' = _text s.
Proof.
  intros Hlen.
  unfold set_background, bg_group_pop, bg_group_append, file_open. run.
  repeat case_step.
  all: try discriminate.
  all: intros Hrun; injection Hrun as <- <-; cbn.
  all: try (apply list_pop_some in Hpop; rewrite Hpop in Hlen;
            rewrite length_app in Hlen; cbn in Hlen).
  all: try (apply list_pop_none in Hpop).
  all: try (exfalso; lia).
  all: try (destruct l; [|cbn in Hlen; lia]); rewrite ?Hpop.
  all: repeat split.
Qed.

(* ================================================================== *)
(** ** fetch: errors before anything is drawn *)

(** X10.  Value paths are configured, the response has arrived and its
    body parses, but following one of the paths fails with [e].  Then
    [fetch] raises [e] to its caller; nothing was added to the trace
    after the response but the debug print of the body: the callback was
    not called and nothing was drawn, the display is as at the start. *)
Theorem fetch_value_error_propagates (W : World) (cfg : Config) (fuel : nat)
  (s s1 : State) (r : Response) (doc : PyVal) (paths : list PyVal) (e : Exn) :
  fetch_begin W cfg fuel s = (Ok r, s1) ->
  truthy (_json_path cfg) = true ->
  w_json W (resp_text r) = inr doc ->
  py_iter (_json_path cfg) = inr paths ->
  traverse_all doc paths = inl e ->
  exists s',
    fetch W cfg fuel s = (Raise e, s') /\
    trace s' =
      (trace s1 ++ (if _debug cfg then [EvPrint [PStr (resp_text r)]] else []))%list /\
    same_display s s'.
Proof.
  intros Hbegin Hpaths Hjson Hiter Hfail.
  destruct (fetch_begin_no_image W cfg fuel s) as [(Hsplash & Hbg & Hfile & Htext) _].
  rewrite Hbegin in *. cbn [snd] in *.
  unfold fetch. unfold bind at 1. rewrite Hbegin.
  unfold extract, parse_json, extract_values.
  rewrite Hpaths, Bool.orb_true_r, Hjson, Hiter.
  destruct (_debug cfg); run; rewrite Hfail; run;
    (eexists; split; [reflexivity|]); cbn;
    rewrite ?app_nil_r; (split; [reflexivity|]); repeat split; assumption.
Qed.

(** X11.  When no response is obtained (joining the access point or the
    request raised [e]), [fetch] raises [e] and the display is as it
    was: the scene, the background and the text slots are untouched, and
    nothing was downloaded to a file. *)
Theorem fetch_no_response_keeps_display (W : World) (cfg : Config) (fuel : nat)
  (s s1 : State) (e : Exn) :
  fetch_begin W cfg fuel s = (Raise e, s1) ->
  fetch W cfg fuel s = (Raise e, s1) /\
  same_display s s1 /\
  (forall ev, In ev (trace s1) -> is_image_event ev = true -> In ev (trace s)).
Proof.
  intros Hbegin.
  destruct (fetch_begin_no_image W cfg fuel s) as [Hdisp (evs & Htrace & Hevs)].
  rewrite Hbegin in *. cbn [snd] in *.
  split; [unfold fetch, bind; rewrite Hbegin; reflexivity|].
  split; [exact Hdisp|].
  intros ev Hin Himage. rewrite Htrace in Hin.
  apply in_app_or in Hin. destruct Hin as [Hin|Hin]; [exact Hin|].
  rewrite Forall_forall in Hevs. rewrite (Hevs _ Hin) in Himage. discriminate.
Qed.

(** X12.  With the local file in use, [fetch] gets its response without
    any event of the network (no poll of the coprocessor, no connection,
    no request), whatever the fuel: the connection loop is never
    entered. *)
Theorem fetch_local_response_offline (W : World) (cfg : Config) (fuel : nat) (s : State) :
  _uselocal cfg = true ->
  fst (fetch_begin W cfg fuel s) <> OutOfFuel /\
  exists evs,
    trace (snd (fetch_begin W cfg fuel s)) = (trace s ++ evs)%list /\
    Forall (fun e => is_network e = false) evs.
Proof.
  intros Hlocal. split.
  - unfold fetch_begin. unfold bind at 1. unfold gc_collect, ret at 1.
    unfold bind at 1.
    destruct (when (_debug cfg) _ s) as [[[]|e|] s0] eqn:Hdebug; cbn [fst].
    + rewrite (get_response_local W cfg fuel s0 Hlocal).
      unfold Fake_Requests, with_open, file_open. run.
      repeat match goal with
             | |- context [match ?x with _ => _ end] =>
                 match x with
                 | w_open _ _ _ _ => destruct x
                 | w_read _ _ _ => destruct x
                 end; run
             end; discriminate.
    + discriminate.
    + exfalso. revert Hdebug. destruct (_debug cfg); run; discriminate.
  - destruct (fetch_begin_local_no_network W cfg fuel Hlocal s) as [_ Hevs].
    exact Hevs.
Qed.

Lemma set_trace_twice (a b : list Event) (s : State) :
  set_trace a (set_trace b s) = set_trace a s.
Proof. reflexivity. Qed.

(** X13.  The image path leads to a missing key that is a string [k].
    Then [fetch] prints that [k] was not found, sets the default
    background and goes on with the callback and the text slots, with
    the values it extracted and without any download. *)
Theorem fetch_missing_key_falls_back (W : World) (cfg : Config) (fuel : nat)
  (s s1 : State) (r : Response) (doc values : PyVal) (k : string) (rest : list PyVal) :
  fetch_begin W cfg fuel s = (Ok r, s1) ->
  truthy (_image_json_path cfg) = true ->
  w_json W (resp_text r) = inr doc ->
  (forall st, extract_values W cfg r doc st = (Ok values, st)) ->
  _json_traverse doc (_image_json_path cfg) = inl (mkExn KeyError (PStr k :: rest)) ->
  fetch W cfg fuel s =
    (set_background W (_default_bg cfg) ;; finish W cfg values)
      (set_trace
         ((trace s1 ++ (if _debug cfg then [EvPrint [PStr (resp_text r)]] else []))
          ++ [EvPrint [PStr ("Error finding image data. '" ++ k ++ "' not found.")]])
         s1).
Proof.
  intros Hbegin Himage Hjson Hvalues Hmissing.
  unfold fetch. unfold bind at 1. rewrite Hbegin.
  unfold extract, parse_json, extract_image_url.
  rewrite Himage, Hjson. cbn [orb].
  destruct (_debug cfg);
    unfold bind, ret, raise, print, emit, modify, try_except, when, lift, gc_collect;
    cbn -[set_background finish extract_values _json_traverse];
    rewrite Hvalues, Hmissing;
    cbn -[set_background finish]; rewrite ?app_nil_r, ?set_trace_twice;
    match goal with
    | |- context [set_background W (_default_bg cfg) ?st] =>
        destruct (set_background W (_default_bg cfg) st) as [[[]|e'|] s4]
    end; reflexivity.
Qed.

(* ================================================================== *)
(** ** The constructor's text slots *)

Lemma length_replace_nth {A : Type} (l : list A) (i : nat) (v : A) :
  List.length (replace_nth l i v) = List.length l.
Proof.
  revert i. induction l as [|a l IH]; intros [|i]; cbn; try reflexivity.
  rewrite IH. reflexivity.
Qed.

Lemma fill_slot_length (c p w m : PyVal) (slots slots' : TextSlots) (i n : nat) :
  slots_of_length n slots ->
  fill_slot c p w m slots i = inr slots' ->
  slots_of_length n slots'.
Proof.
  intros (H1 & H2 & H3 & H4 & H5). unfold fill_slot, and_then.
  destruct (getitem c _); [discriminate|].
  destruct (getitem p _); [discriminate|].
  destruct (getitem w _); [discriminate|].
  destruct (getitem m _); [discriminate|].
  intros Hfill. injection Hfill as <-.
  unfold slots_of_length. cbn. rewrite !length_replace_nth. auto.
Qed.

Lemma fill_slots_length (c p w m : PyVal) (n : nat) :
  forall (indices : list nat) (slots slots' : TextSlots),
    slots_of_length n slots ->
    fill_slots c p w m indices slots = inr slots' ->
    slots_of_length n slots'.
Proof.
  induction indices as [|i indices IH]; intros slots slots' Hlen; cbn [fill_slots].
  - intros Hfill. injection Hfill as <-. exact Hlen.
  - unfold and_then.
    destruct (fill_slot c p w m slots i) as [e|slots1] eqn:Hone; [discriminate|].
    apply IH. exact (fill_slot_length c p w m slots slots1 i n Hlen Hone).
Qed.

(** X14.  When the constructor accepts the text configuration with a
    font, the five lists it stores for the text slots (text areas,
    colors, positions, wrap widths, maximal lengths) have one and the
    same length, and there is at least one slot. *)
Theorem init_text_same_lengths
  (text_position text_color text_wrap text_maxlen : PyVal) (slots : TextSlots) :
  init_text true text_position text_color text_wrap text_maxlen = inr (Some slots) ->
  exists num, (1 <= num)%nat /\ slots_of_length num slots.
Proof.
  unfold init_text, and_then.
  destruct (getitem text_position (PInt 0)) as [e|first] eqn:Hfirst; [discriminate|].
  destruct (is_list_or_tuple first) eqn:Hseq.
  - destruct (py_len text_position) as [e|n] eqn:Hn; [discriminate|].
    match goal with
    | |- context [fill_slots ?c ?p ?w ?m ?ix ?init] =>
        destruct (fill_slots c p w m ix init) as [e|ts] eqn:Hfill; [discriminate|]
    end.
    intros Hinit. injection Hinit as <-.
    exists (Z.to_nat n). split.
    + destruct text_position as [| | |t|l|l|d]; cbn in Hfirst, Hn; try discriminate;
        try (injection Hn as <-).
      * unfold string_get in Hfirst.
        destruct (seq_index (list_ascii_of_string t) 0); try discriminate.
        injection Hfirst as <-. discriminate Hseq.
      * destruct l; [discriminate Hfirst|cbn; lia].
      * destruct l; [discriminate Hfirst|cbn; lia].
    + eapply fill_slots_length; [|exact Hfill].
      unfold slots_of_length. cbn. rewrite !repeat_length. auto.
  - match goal with
    | |- context [fill_slots ?c ?p ?w ?m ?ix ?init] =>
        destruct (fill_slots c p w m ix init) as [e|ts] eqn:Hfill; [discriminate|]
    end.
    intros Hinit. injection Hinit as <-.
    exists 1%nat. split; [lia|].
    eapply fill_slots_length; [|exact Hfill].
    unfold slots_of_length. cbn. auto.
Qed.

Lemma init_text_same_lengths_witness :
  exists num, (1 <= num)%nat /\
    slots_of_length num
      {| ts_text := [PNone; PNone];
         ts_color := [PInt 1; PInt 2];
         ts_position := [PTuple [PInt 0; PInt 10]; PTuple [PInt 0; PInt 20]];
         ts_wrap := [PInt 0; PInt 0];
         ts_maxlen := [PInt 0; PInt 0] |}.
Proof.
  apply (init_text_same_lengths
           (PTuple [PTuple [PInt 0; PInt 10]; PTuple [PInt 0; PInt 20]])
           (PTuple [PInt 1; PInt 2]) (PInt 0) (PInt 0)).
  vm_compute. reflexivity.
Defined.

(** X15.  Several text positions with a single color (such as the
    default color, an integer) are refused: the constructor raises a
    [TypeError] when it reads the color of the first slot. *)
Theorem init_text_scalar_color (text_position first text_wrap text_maxlen : PyVal) (c : Z) :
  getitem text_position (PInt 0) = inr first ->
  is_list_or_tuple first = true ->
  init_text true text_position (PInt c) text_wrap text_maxlen
  = inl (mkExn TypeError [PStr "object is not subscriptable"]).
Proof.
  intros Hfirst Hseq. unfold init_text, and_then. rewrite Hfirst, Hseq.
  destruct text_position as [| | |t|l|l|d]; cbn in Hfirst; try discriminate.
  - unfold string_get in Hfirst.
    destruct (seq_index (list_ascii_of_string t) 0); try discriminate.
    injection Hfirst as <-. discriminate Hseq.
  - destruct l as [|p l]; [discriminate Hfirst|].
    cbn [py_len List.length]. rewrite Nat2Z.id. reflexivity.
  - destruct l as [|p l]; [discriminate Hfirst|].
    cbn [py_len List.length]. rewrite Nat2Z.id. reflexivity.
Qed.

Lemma init_text_scalar_color_witness :
  init_text true (PTuple [PTuple [PInt 0; PInt 10]; PTuple [PInt 0; PInt 20]])
    (PInt 8421504) (PInt 0) (PInt 0)
  = inl (mkExn TypeError [PStr "object is not subscriptable"]).
Proof.
  apply (init_text_scalar_color
           (PTuple [PTuple [PInt 0; PInt 10]; PTuple [PInt 0; PInt 20]])
           (PTuple [PInt 0; PInt 10]) (PInt 0) (PInt 0) 8421504);
    reflexivity.
Defined.

(* ================================================================== *)
(** ** show_QR: the raster *)

Lemma range_in (n b : Z) : In b (range n) <-> 0 <= b < n.
Proof.
  unfold range. rewrite in_map_iff. split.
  - intros (k & <- & Hk). apply in_seq in Hk. lia.
  - intros Hb. exists (Z.to_nat b). split; [lia|]. apply in_seq. lia.
Qed.

Lemma nth_replace_nth_eq {A : Type} (l : list A) (i : nat) (v d : A) :
  (i < List.length l)%nat -> nth i (replace_nth l i v) d = v.
Proof.
  revert i. induction l as [|a l IH]; intros [|i] Hi; cbn in *; try lia; auto.
  apply IH. lia.
Qed.

Lemma nth_replace_nth_ne {A : Type} (l : list A) (i j : nat) (v d : A) :
  i <> j -> nth j (replace_nth l i v) d = nth j l d.
Proof.
  revert i j. induction l as [|a l IH]; intros [|i] [|j] Hij; cbn; try reflexivity;
    try contradiction.
  apply IH. congruence.
Qed.

Lemma Forall_replace_nth {A : Type} (P : A -> Prop) (l : list A) (i : nat) (v : A) :
  Forall P l -> P v -> Forall P (replace_nth l i v).
Proof.
  intros Hl Hv. revert i. induction Hl as [|a l Ha Hl IH]; intros [|i]; cbn;
    constructor; auto.
Qed.

Lemma byte_lor_bit (a k : Z) :
  0 <= a < 256 -> 0 <= k <= 7 -> 0 <= Z.lor a (Z.shiftl 1 k) < 256.
Proof.
  intros Ha Hk. rewrite Z.shiftl_1_l.
  assert (Hp : 0 < 2 ^ k) by (apply Z.pow_pos_nonneg; lia).
  assert (Hp8 : 2 ^ k < 2 ^ 8) by (apply Z.pow_lt_mono_r; lia).
  assert (Hnn : 0 <= Z.lor a (2 ^ k)) by (apply Z.lor_nonneg; lia).
  split; [exact Hnn|].
  change 256 with (2 ^ 8).
  destruct (Z.eq_dec (Z.lor a (2 ^ k)) 0) as [->|Hnz]; [reflexivity|].
  apply Z.log2_lt_pow2; [lia|].
  rewrite Z.log2_lor by lia.
  apply Z.max_lub_lt.
  - destruct (Z.eq_dec a 0) as [->|Haz]; [cbn; lia|].
    apply Z.log2_lt_pow2; [lia|]. change (2 ^ 8) with 256. lia.
  - apply Z.log2_lt_pow2; lia.
Qed.

Lemma set_pixel (n : nat) (line : list Z) (x : Z) :
  scan_line n line ->
  0 <= x < 8 * Z.of_nat n ->
  exists line',
    bytearray_or line (x / 8) (Z.shiftl 1 (7 - x mod 8)) = inr line' /\
    scan_line n line' /\
    forall p, 0 <= p -> pixel line' p = pixel line p || (p =? x).
Proof.
  intros [Hlen Hbytes] Hx.
  assert (Hmod : 0 <= x mod 8 < 8) by (apply Z.mod_pos_bound; lia).
  assert (Hdiv : 0 <= x / 8 < Z.of_nat n).
  { split; [apply Z.div_pos; lia|apply Z.div_lt_upper_bound; lia]. }
  assert (Hold : 0 <= nth (Z.to_nat (x / 8)) line 0 < 256).
  { rewrite Forall_forall in Hbytes. apply Hbytes, nth_In. lia. }
  pose proof (byte_lor_bit _ (7 - x mod 8) Hold ltac:(lia)) as Hnew.
  unfold bytearray_or. rewrite Hlen.
  destruct (Z.ltb_spec (x / 8) 0) as [Hneg|_]; [lia|].
  destruct (Z.leb_spec 0 (x / 8)) as [_|Hneg]; [|lia].
  destruct (Z.ltb_spec (x / 8) (Z.of_nat n)) as [_|Hbig]; [|lia].
  cbn [andb].
  destruct (Z.leb_spec 0 (Z.lor (nth (Z.to_nat (x / 8)) line 0) (Z.shiftl 1 (7 - x mod 8))))
    as [_|Hbad]; [|lia].
  destruct (Z.ltb_spec (Z.lor (nth (Z.to_nat (x / 8)) line 0) (Z.shiftl 1 (7 - x mod 8))) 256)
    as [_|Hbad]; [|lia].
  cbn [andb]. eexists. split; [reflexivity|]. split.
  - split; [rewrite length_replace_nth; exact Hlen|].
    apply Forall_replace_nth; assumption.
  - intros p Hp. unfold pixel.
    assert (Hpmod : 0 <= p mod 8 < 8) by (apply Z.mod_pos_bound; lia).
    pose proof (Z.div_mod p 8 ltac:(lia)) as Hpeq.
    pose proof (Z.div_mod x 8 ltac:(lia)) as Hxeq.
    destruct (Z.eq_dec (p / 8) (x / 8)) as [Hsame|Hother].
    + rewrite Hsame, nth_replace_nth_eq by lia.
      rewrite Z.lor_spec, Z.shiftl_1_l, Z.pow2_bits_eqb by lia.
      f_equal.
      destruct (Z.eqb_spec (7 - x mod 8) (7 - p mod 8)), (Z.eqb_spec p x);
        try reflexivity; exfalso; lia.
    + rewrite nth_replace_nth_ne.
      * destruct (Z.eqb_spec p x) as [->|_]; [contradiction|].
        rewrite Bool.orb_false_r. reflexivity.
      * assert (0 <= p / 8) by (apply Z.div_pos; lia). lia.
Qed.

Lemma qr_block_pixels (n : nat) (X_OFFSET BLOCK_SIZE x : Z) :
  forall (bs : list Z) (line : list Z),
    scan_line n line ->
    (forall b, In b bs -> 0 <= X_OFFSET + x * BLOCK_SIZE + b < 8 * Z.of_nat n) ->
    exists line',
      qr_block line X_OFFSET BLOCK_SIZE x bs = inr line' /\
      scan_line n line' /\
      forall p, 0 <= p ->
        pixel line' p =
        pixel line p || existsb (fun b => p =? X_OFFSET + x * BLOCK_SIZE + b) bs.
Proof.
  induction bs as [|b bs IH]; intros line Hline Hbs; cbn [qr_block existsb].
  - exists line. split; [reflexivity|]. split; [exact Hline|].
    intros p _. rewrite Bool.orb_false_r. reflexivity.
  - destruct (set_pixel n line (X_OFFSET + x * BLOCK_SIZE + b) Hline)
      as (line1 & Hset & Hline1 & Hpix1); [apply Hbs; left; reflexivity|].
    rewrite Hset. cbn [and_then].
    destruct (IH line1 Hline1) as (line2 & Hrun & Hline2 & Hpix2);
      [intros b' Hb'; apply Hbs; right; exact Hb'|].
    exists line2. split; [exact Hrun|]. split; [exact Hline2|].
    intros p Hp. rewrite Hpix2, Hpix1 by exact Hp.
    rewrite Bool.orb_assoc. reflexivity.
Qed.

Lemma qr_row_pixels (n : nat) (matrix : Z -> Z -> bool) (y X_OFFSET BLOCK_SIZE : Z) :
  forall (xs : list Z) (line : list Z),
    scan_line n line ->
    (forall x b, In x xs -> In b (range BLOCK_SIZE) ->
       0 <= X_OFFSET + x * BLOCK_SIZE + b < 8 * Z.of_nat n) ->
    exists line',
      qr_row matrix y line X_OFFSET BLOCK_SIZE xs = inr line' /\
      scan_line n line' /\
      forall p, 0 <= p ->
        pixel line' p =
        pixel line p ||
        existsb (fun x => matrix x y &&
                          existsb (fun b => p =? X_OFFSET + x * BLOCK_SIZE + b)
                            (range BLOCK_SIZE)) xs.
Proof.
  induction xs as [|x xs IH]; intros line Hline Hxs; cbn [qr_row existsb].
  - exists line. split; [reflexivity|]. split; [exact Hline|].
    intros p _. rewrite Bool.orb_false_r. reflexivity.
  - assert (Hrest : forall x' b, In x' xs -> In b (range BLOCK_SIZE) ->
              0 <= X_OFFSET + x' * BLOCK_SIZE + b < 8 * Z.of_nat n)
      by (intros x' b Hx' Hb; apply Hxs; [right; exact Hx'|exact Hb]).
    destruct (matrix x y).
    + destruct (qr_block_pixels n X_OFFSET BLOCK_SIZE x (range BLOCK_SIZE) line Hline)
        as (line1 & Hblock & Hline1 & Hpix1);
        [intros b Hb; apply Hxs; [left; reflexivity|exact Hb]|].
      rewrite Hblock. cbn [and_then].
      destruct (IH line1 Hline1 Hrest) as (line2 & Hrun & Hline2 & Hpix2).
      exists line2. split; [exact Hrun|]. split; [exact Hline2|].
      intros p Hp. rewrite Hpix2, Hpix1 by exact Hp. cbn [andb].
      rewrite Bool.orb_assoc. reflexivity.
    + destruct (IH line Hline Hrest) as (line2 & Hrun & Hline2 & Hpix2).
      exists line2. split; [exact Hrun|]. split; [exact Hline2|].
      intros p Hp. rewrite Hpix2 by exact Hp. reflexivity.
Qed.

Lemma pixel_blank (n : nat) (p : Z) : pixel (repeat 0 n) p = false.
Proof.
  unfold pixel.
  replace (nth (Z.to_nat (p / 8)) (repeat 0 n) 0) with 0; [apply Z.testbit_0_l|].
  symmetry. apply nth_repeat.
Qed.

Lemma scan_line_blank (n : nat) : scan_line n (repeat 0 n).
Proof.
  split; [apply repeat_length|]. apply Forall_forall.
  intros b Hb. apply repeat_spec in Hb. lia.
Qed.

(** The modules of a code of [width] modules fit in a line of
    [qr_size] pixels. *)
Lemma qr_modules_fit (qr_size width x b : Z) :
  0 < qr_size -> 0 <= width ->
  0 <= x < width -> 0 <= b < QR_BLOCK_SIZE qr_size width ->
  0 <= QR_X_OFFSET qr_size width + x * QR_BLOCK_SIZE qr_size width + b < qr_size.
Proof.
  intros Hsize Hwidth Hx Hb. unfold QR_X_OFFSET.
  set (B := QR_BLOCK_SIZE qr_size width) in *.
  assert (HB : B * (width + 4) <= qr_size).
  { unfold B, QR_BLOCK_SIZE. rewrite Z.mul_comm. apply Z.mul_div_le. lia. }
  assert (Hxb : x * B + b < width * B) by nia.
  assert (Hwb : 0 <= width * B) by nia.
  pose proof (Z.div_mod (qr_size - B * width) 2 ltac:(lia)) as Hhalf.
  pose proof (Z.mod_pos_bound (qr_size - B * width) 2 ltac:(lia)) as Hrem.
  nia.
Qed.

Lemma qr_line_bytes (qr_size : Z) :
  0 < qr_size -> qr_size mod 32 = 0 ->
  8 * Z.of_nat (Z.to_nat (qr_size / 8)) = qr_size.
Proof.
  intros Hsize Hmod.
  pose proof (Z.div_mod qr_size 32 ltac:(lia)) as Heq. rewrite Hmod in Heq.
  assert (Hdiv : qr_size / 8 = 4 * (qr_size / 32)).
  { rewrite Heq at 1. replace (32 * (qr_size / 32) + 0) with (4 * (qr_size / 32) * 8) by lia.
    apply Z.div_mul. lia. }
  assert (0 <= qr_size / 32) by (apply Z.div_pos; lia).
  rewrite Hdiv. lia.
Qed.

Lemma qr_line_scan (qr_size width : Z) (matrix : Z -> Z -> bool) (y : Z) :
  0 < qr_size -> qr_size mod 32 = 0 -> 0 <= width ->
  exists line,
    qr_line qr_size width matrix y = inr line /\
    scan_line (Z.to_nat (qr_size / 8)) line /\
    forall p, 0 <= p ->
      pixel line p =
      existsb (fun x => matrix x y &&
                 existsb (fun b => p =? QR_X_OFFSET qr_size width
                                        + x * QR_BLOCK_SIZE qr_size width + b)
                   (range (QR_BLOCK_SIZE qr_size width)))
        (range width).
Proof.
  intros Hsize Hmod Hwidth. unfold qr_line.
  pose proof (qr_line_bytes qr_size Hsize Hmod) as Hbytes.
  destruct (qr_row_pixels (Z.to_nat (qr_size / 8)) matrix y
              (QR_X_OFFSET qr_size width) (QR_BLOCK_SIZE qr_size width)
              (range width) (repeat 0 (Z.to_nat (qr_size / 8)))
              (scan_line_blank _))
    as (line & Hrun & Hscan & Hpix).
  { intros x b Hx Hb. apply range_in in Hx. apply range_in in Hb.
    rewrite Hbytes. apply qr_modules_fit; assumption. }
  exists line. split; [exact Hrun|]. split; [exact Hscan|].
  intros p Hp. rewrite Hpix, pixel_blank by lia. reflexivity.
Qed.

(** X16.  For a size that passes the check of [show_QR] (a positive
    multiple of 32), the scan line of any row of the code is computed
    without error, has [qr_size // 8] bytes, and its pixel [p] is set
    exactly when [p] lies in the block of a dark module [x] of that row:
    [X_OFFSET + x * BLOCK_SIZE <= p < X_OFFSET + (x + 1) * BLOCK_SIZE]. *)
Theorem qr_line_pixels (qr_size width : Z) (matrix : Z -> Z -> bool) (y : Z) :
  0 < qr_size -> qr_size mod 32 = 0 -> 0 <= width ->
  exists line,
    qr_line qr_size width matrix y = inr line /\
    List.length line = Z.to_nat (qr_size / 8) /\
    forall p, 0 <= p < qr_size ->
      (pixel line p = true <->
       exists x, 0 <= x < width /\ matrix x y = true /\
         QR_X_OFFSET qr_size width + x * QR_BLOCK_SIZE qr_size width <= p
         < QR_X_OFFSET qr_size width + (x + 1) * QR_BLOCK_SIZE qr_size width).
Proof.
  intros Hsize Hmod Hwidth.
  destruct (qr_line_scan qr_size width matrix y Hsize Hmod Hwidth)
    as (line & Hrun & [Hlen _] & Hpix).
  exists line. split; [exact Hrun|]. split; [exact Hlen|].
  intros p Hp. rewrite Hpix by lia.
  rewrite existsb_exists. split.
  - intros (x & Hx & Hdark). apply range_in in Hx.
    apply andb_prop in Hdark. destruct Hdark as [Hdark Hblock].
    apply existsb_exists in Hblock. destruct Hblock as (b & Hb & Heq).
    apply range_in in Hb. apply Z.eqb_eq in Heq.
    exists x. repeat split; try lia; auto.
  - intros (x & Hx & Hdark & Hlo & Hhi).
    exists x. split; [apply range_in; exact Hx|].
    rewrite Hdark. cbn [andb]. apply existsb_exists.
    exists (p - (QR_X_OFFSET qr_size width + x * QR_BLOCK_SIZE qr_size width)).
    split; [apply range_in; lia|apply Z.eqb_eq; lia].
Qed.

Lemma qr_line_pixels_witness :
  exists line,
    qr_line 128 21 (fun x y => Z.even (x + y)) 3 = inr line /\
    List.length line = Z.to_nat (128 / 8) /\
    forall p, 0 <= p < 128 ->
      (pixel line p = true <->
       exists x, 0 <= x < 21 /\ (fun x y => Z.even (x + y)) x 3 = true /\
         QR_X_OFFSET 128 21 + x * QR_BLOCK_SIZE 128 21 <= p
         < QR_X_OFFSET 128 21 + (x + 1) * QR_BLOCK_SIZE 128 21).
Proof.
  apply (qr_line_pixels 128 21 (fun x y => Z.even (x + y)) 3); [lia|reflexivity|lia].
Defined.

Lemma qr_rows_loaded (qr_size width height : Z) (matrix : Z -> Z -> bool) :
  0 < qr_size -> qr_size mod 32 = 0 -> 0 <= width -> 0 <= height <= width + 4 ->
  forall ys, (forall y, In y ys -> 0 <= y < height) ->
  exists rows,
    qr_rows qr_size width height matrix ys = inr rows /\
    List.length rows = (List.length ys * Z.to_nat (QR_BLOCK_SIZE qr_size width))%nat /\
    forall row line, In (row, line) rows ->
      0 <= row < qr_size /\ List.length line = Z.to_nat (qr_size / 8).
Proof.
  intros Hsize Hmod Hwidth Hheight.
  induction ys as [|y ys IH]; intros Hys; cbn [qr_rows].
  - exists []. split; [reflexivity|]. split; [reflexivity|]. intros row line [].
  - destruct (qr_line_scan qr_size width matrix y Hsize Hmod Hwidth)
      as (line & Hline & [Hlen _] & _).
    rewrite Hline. cbn [and_then].
    destruct IH as (more & Hmore & Hcount & Hrows);
      [intros y' Hy'; apply Hys; right; exact Hy'|].
    rewrite Hmore. cbn [and_then].
    eexists. split; [reflexivity|]. split.
    + rewrite length_app, length_map. unfold range at 1.
      rewrite length_map, length_seq, Hcount. cbn [List.length]. lia.
    + intros row line' Hin. apply in_app_or in Hin. destruct Hin as [Hin|Hin];
        [|exact (Hrows _ _ Hin)].
      apply in_map_iff in Hin. destruct Hin as (b & Heq & Hb).
      injection Heq as <- <-. apply range_in in Hb.
      split; [|exact Hlen].
      assert (Hy : 0 <= y < height) by (apply Hys; left; reflexivity).
      unfold QR_Y_OFFSET.
      set (B := QR_BLOCK_SIZE qr_size width) in *.
      assert (HB : B * (width + 4) <= qr_size).
      { unfold B, QR_BLOCK_SIZE. rewrite Z.mul_comm. apply Z.mul_div_le. lia. }
      assert (Hyb : y * B + b < height * B) by nia.
      assert (Hhb : 0 <= B * height <= qr_size) by nia.
      pose proof (Z.div_mod (qr_size - B * height) 2 ltac:(lia)) as Hhalf.
      pose proof (Z.mod_pos_bound (qr_size - B * height) 2 ltac:(lia)) as Hrem.
      nia.
Qed.

(** X17.  For a size that is a positive multiple of 32 and a code that
    is at most four modules taller than wide, the raster of [show_QR]
    ends without error: it loads [BLOCK_SIZE] rows for each row of the
    code, every row number lies within the bitmap ([0 <= row < qr_size])
    and every row has [qr_size // 8] bytes. *)
Theorem qr_raster_rows (qr_size width height : Z) (matrix : Z -> Z -> bool) :
  0 < qr_size -> qr_size mod 32 = 0 -> 0 <= width -> 0 <= height <= width + 4 ->
  exists rows,
    qr_raster qr_size width height matrix = inr rows /\
    Z.of_nat (List.length rows) = height * QR_BLOCK_SIZE qr_size width /\
    forall row line, In (row, line) rows ->
      0 <= row < qr_size /\ List.length line = Z.to_nat (qr_size / 8).
Proof.
  intros Hsize Hmod Hwidth Hheight. unfold qr_raster.
  rewrite Hmod. cbn [Z.eqb negb].
  destruct (qr_rows_loaded qr_size width height matrix Hsize Hmod Hwidth Hheight
              (range height)) as (rows & Hrun & Hcount & Hrows).
  { intros y Hy. apply range_in in Hy. exact Hy. }
  exists rows. split; [exact Hrun|]. split; [|exact Hrows].
  rewrite Hcount. unfold range. rewrite length_map, length_seq.
  assert (0 <= QR_BLOCK_SIZE qr_size width) by (apply Z.div_pos; lia).
  lia.
Qed.

Lemma qr_raster_rows_witness :
  exists rows,
    qr_raster 128 21 21 (fun x y => Z.even (x + y)) = inr rows /\
    Z.of_nat (List.length rows) = 21 * QR_BLOCK_SIZE 128 21 /\
    forall row line, In (row, line) rows ->
      0 <= row < 128 /\ List.length line = Z.to_nat (128 / 8).
Proof.
  apply (qr_raster_rows 128 21 21 (fun x y => Z.even (x + y)));
    [lia|reflexivity|lia|lia].
Defined.

(* ================================================================== *)
(** ** get_local_time: reading the time stamp *)

Lemma split_on_not_nil (c : ascii) (s : string) : split_on c s <> [].
Proof.
  destruct s as [|a rest]; cbn; [discriminate|].
  destruct (Ascii.eqb a c); [discriminate|].
  destruct (split_on c rest); discriminate.
Qed.

Lemma split_on_lacks (c : ascii) (s : string) :
  lacks c s = true -> split_on c s = [s].
Proof.
  induction s as [|a rest IH]; cbn; [reflexivity|].
  intros H. apply andb_prop in H. destruct H as [Ha Hrest].
  apply Bool.negb_true_iff in Ha. rewrite Ha, (IH Hrest). reflexivity.
Qed.

(** A piece without the separator in front of a text joins the first
    piece of the text. *)
Lemma split_on_prefix (c : ascii) (a b : string) :
  lacks c a = true ->
  split_on c (a ++ b) =
  (a ++ hd "" (split_on c b)) :: tl (split_on c b).
Proof.
  induction a as [|x a IH]; cbn [append lacks]; intros H.
  - destruct (split_on c b) as [|w ws] eqn:Hb;
      [exfalso; exact (split_on_not_nil c b Hb)|reflexivity].
  - apply andb_prop in H. destruct H as [Hx Ha].
    apply Bool.negb_true_iff in Hx. cbn [split_on]. rewrite Hx, (IH Ha). reflexivity.
Qed.

Lemma split_on_sep (c : ascii) (b : string) :
  split_on c (String c b) = "" :: split_on c b.
Proof. cbn [split_on]. rewrite Ascii.eqb_refl. reflexivity. Qed.

Lemma split_on_other (c d : ascii) (b : string) :
  Ascii.eqb d c = false ->
  split_on c (String d b) = String d (hd "" (split_on c b)) :: tl (split_on c b).
Proof.
  intros Hd. cbn [split_on]. rewrite Hd.
  destruct (split_on c b) as [|w ws] eqn:Hb;
    [exfalso; exact (split_on_not_nil c b Hb)|reflexivity].
Qed.

Ltac fields H :=
  cbn [forallb] in H; unfold is_field in H;
  repeat rewrite Bool.andb_true_iff in H; decompose [and] H; clear H.

Ltac split_step :=
  first
    [ rewrite split_on_sep
    | rewrite split_on_other by reflexivity
    | rewrite split_on_prefix by assumption
    | rewrite split_on_lacks by assumption ];
  cbn [hd tl].

(** X18.  For a reply whose [datetime] reads
    [year-month-day T hours:minutes:seconds . rest] (each field free of
    the separators, the rest free of [T]), the value written to the
    clock holds the integers of the six fields, in that order, followed
    by the day of the week, the day of the year and the daylight-saving
    flag of the reply; the fraction and whatever follows it are
    ignored. *)
Theorem struct_time_of_fields (W : World) (time_json : PyVal)
  (yr mo dy hr mi sc frac : string) (Y Mo D H Mi S : Z)
  (year_day week_day is_dst : PyVal) :
  getitem time_json (PStr "datetime")
  = inr (PStr (yr ++ "-" ++ mo ++ "-" ++ dy ++ "T" ++ hr ++ ":" ++ mi ++ ":" ++ sc
               ++ "." ++ frac)) ->
  getitem time_json (PStr "day_of_year") = inr year_day ->
  getitem time_json (PStr "day_of_week") = inr week_day ->
  getitem time_json (PStr "dst") = inr is_dst ->
  forallb is_field [yr; mo; dy; hr; mi; sc] = true ->
  lacks "T" frac = true ->
  w_int W yr = Some Y -> w_int W mo = Some Mo -> w_int W dy = Some D ->
  w_int W hr = Some H -> w_int W mi = Some Mi -> w_int W sc = Some S ->
  struct_time_of W time_json
  = inr (PTuple [PInt Y; PInt Mo; PInt D; PInt H; PInt Mi; PInt S;
                 week_day; year_day; is_dst]).
Proof.
  intros Hdt Hyd Hwd Hdst Hfields Hfrac HY HMo HD HH HMi HS.
  fields Hfields.
  unfold struct_time_of. rewrite Hdt, Hyd, Hwd, Hdst. cbn [and_then append].
  repeat split_step. rewrite !append_empty_r.
  cbn [and_then].
  repeat split_step. rewrite ?append_empty_r.
  cbn [ints_of py_int and_then]. rewrite HY, HMo, HD. cbn [and_then unpack3].
  repeat split_step. rewrite ?append_empty_r.
  repeat split_step.
  cbn [ints_of py_int and_then]. rewrite HH, HMi, HS. reflexivity.
Qed.

Lemma struct_time_of_fields_witness :
  struct_time_of (Scenario.world (inr PNone))
    (PDict [("datetime", PStr "2019-03-04T14:30:01.123456-05:00");
            ("day_of_year", PInt 63); ("day_of_week", PInt 1); ("dst", PBool false)])
  = inr (PTuple [PInt 2019; PInt 3; PInt 4; PInt 14; PInt 30; PInt 1;
                 PInt 1; PInt 63; PBool false]).
Proof.
  apply (struct_time_of_fields (Scenario.world (inr PNone))
           (PDict [("datetime", PStr "2019-03-04T14:30:01.123456-05:00");
                   ("day_of_year", PInt 63); ("day_of_week", PInt 1);
                   ("dst", PBool false)])
           "2019" "03" "04" "14" "30" "01" "123456-05:00"
           2019 3 4 14 30 1 (PInt 63) (PInt 1) (PBool false));
    reflexivity.
Defined.

Lemma ints_of_value_error (W : World) :
  forall (parts : list string) (e : Exn),
    ints_of W parts = inl e -> exn_kind e = ValueError.
Proof.
  induction parts as [|x parts IH]; intros e; cbn [ints_of py_int and_then];
    [discriminate|].
  destruct (w_int W x); cbn [and_then].
  - destruct (ints_of W parts) as [e'|ns]; cbn [and_then]; [|discriminate].
    intros He. injection He as <-. apply IH. reflexivity.
  - intros He. injection He as <-. reflexivity.
Qed.

Lemma ints_of_length (W : World) :
  forall (parts : list string) (ns : list Z),
    ints_of W parts = inr ns -> List.length ns = List.length parts.
Proof.
  induction parts as [|x parts IH]; intros ns; cbn [ints_of py_int and_then].
  - intros H. injection H as <-. reflexivity.
  - destruct (w_int W x); cbn [and_then]; [|discriminate].
    destruct (ints_of W parts) as [e'|ns'] eqn:Hrest; cbn [and_then]; [discriminate|].
    intros H. injection H as <-. cbn. rewrite (IH ns' eq_refl). reflexivity.
Qed.

Lemma unpack3_value_error (values : list Z) (e : Exn) :
  unpack3 values = inl e -> exn_kind e = ValueError.
Proof.
  destruct values as [|a [|b [|c [|d values]]]]; cbn; intros H;
    try discriminate; injection H as <-; reflexivity.
Qed.

(** X19.  Once the four keys are in the reply and [datetime] is a
    string, reading the time stamp can only fail with a [ValueError]
    (a part that is not an integer, or the wrong number of parts). *)
Theorem struct_time_of_errors (W : World) (time_json : PyVal) (current_time : string)
  (year_day week_day is_dst : PyVal) (e : Exn) :
  getitem time_json (PStr "datetime") = inr (PStr current_time) ->
  getitem time_json (PStr "day_of_year") = inr year_day ->
  getitem time_json (PStr "day_of_week") = inr week_day ->
  getitem time_json (PStr "dst") = inr is_dst ->
  struct_time_of W time_json = inl e ->
  exn_kind e = ValueError.
Proof.
  intros Hdt Hyd Hwd Hdst. unfold struct_time_of.
  rewrite Hdt, Hyd, Hwd, Hdst. cbn [and_then].
  destruct (split_on "T" current_time) as [|the_date [|the_time [|extra more]]];
    try (intros H; injection H as <-; reflexivity).
  destruct (ints_of W (split_on "-" the_date)) as [e1|date] eqn:Hdate; cbn [and_then].
  { intros H. injection H as <-. exact (ints_of_value_error W _ _ Hdate). }
  destruct (unpack3 date) as [e2|[[year month] mday]] eqn:Hunpack; cbn [and_then].
  { intros H. injection H as <-. exact (unpack3_value_error _ _ Hunpack). }
  destruct (ints_of W (split_on ":" (hd "" (split_on "." the_time)))) as [e3|time] eqn:Htime;
    cbn [and_then].
  { intros H. injection H as <-. exact (ints_of_value_error W _ _ Htime). }
  destruct (unpack3 time) as [e4|[[hours minutes] seconds]] eqn:Hunpack2; cbn [and_then].
  { intros H. injection H as <-. exact (unpack3_value_error _ _ Hunpack2). }
  discriminate.
Qed.

Lemma struct_time_of_errors_witness :
  exn_kind (mkExn ValueError [PStr "wrong number of values to unpack"]) = ValueError.
Proof.
  apply (struct_time_of_errors (Scenario.world (inr PNone))
           (PDict [("datetime", PStr "2019-03-04 14:30:01");
                   ("day_of_year", PInt 63); ("day_of_week", PInt 1);
                   ("dst", PBool false)])
           "2019-03-04 14:30:01" (PInt 63) (PInt 1) (PBool false));
    reflexivity.
Defined.

Lemma lacks_append (c : ascii) (a b : string) :
  lacks c (a ++ b) = lacks c a && lacks c b.
Proof.
  induction a as [|x a IH]; cbn; [reflexivity|]. rewrite IH, Bool.andb_assoc. reflexivity.
Qed.

(** X20.  A time stamp that carries a UTC offset but no fraction of a
    second ([...T hh:mm:ss+hh:mm], so that the time has four parts
    between colons and no dot) is refused with a [ValueError]: the clock
    is not set from it. *)
Theorem struct_time_of_offset_without_fraction (W : World) (time_json : PyVal)
  (date hr mi sc tail : string) (year_day week_day is_dst : PyVal) :
  getitem time_json (PStr "datetime")
  = inr (PStr (date ++ "T" ++ hr ++ ":" ++ mi ++ ":" ++ sc ++ ":" ++ tail)) ->
  getitem time_json (PStr "day_of_year") = inr year_day ->
  getitem time_json (PStr "day_of_week") = inr week_day ->
  getitem time_json (PStr "dst") = inr is_dst ->
  lacks "T" date = true ->
  forallb (fun f => lacks "T" f && lacks ":" f && lacks "." f) [hr; mi; sc] = true ->
  lacks "T" tail = true -> lacks "." tail = true ->
  exists e, struct_time_of W time_json = inl e /\ exn_kind e = ValueError.
Proof.
  intros Hdt Hyd Hwd Hdst Hdate Hfields HtailT Htaildot.
  cbn [forallb] in Hfields. repeat rewrite Bool.andb_true_iff in Hfields.
  decompose [and] Hfields. clear Hfields.
  unfold struct_time_of. rewrite Hdt, Hyd, Hwd, Hdst. cbn [and_then append].
  repeat split_step. rewrite ?append_empty_r.
  destruct (ints_of W (split_on "-" date)) as [e1|ds] eqn:Hds; cbn [and_then].
  { exists e1. split; [reflexivity|exact (ints_of_value_error W _ _ Hds)]. }
  destruct (unpack3 ds) as [e2|[[year month] mday]] eqn:Hunpack; cbn [and_then].
  { exists e2. split; [reflexivity|exact (unpack3_value_error _ _ Hunpack)]. }
  rewrite (split_on_lacks "."
             (hr ++ String ":" (mi ++ String ":" (sc ++ String ":" tail)))).
  2:{ rewrite !lacks_append. cbn [lacks Ascii.eqb Bool.eqb negb andb].
      rewrite !lacks_append. cbn [lacks Ascii.eqb Bool.eqb negb andb].
      rewrite !lacks_append. cbn [lacks Ascii.eqb Bool.eqb negb andb].
      repeat match goal with H : lacks "." _ = true |- _ => rewrite H; clear H end.
      reflexivity. }
  cbn [hd]. repeat split_step. rewrite ?append_empty_r.
  destruct (split_on ":" tail) as [|t0 ts] eqn:Htail;
    [exfalso; exact (split_on_not_nil ":" tail Htail)|].
  cbn [hd tl].
  destruct (ints_of W (hr :: mi :: sc :: t0 :: ts)) as [e3|ns] eqn:Hns; cbn [and_then].
  { exists e3. split; [reflexivity|exact (ints_of_value_error W _ _ Hns)]. }
  apply ints_of_length in Hns.
  destruct ns as [|a [|b [|c [|d ns]]]]; cbn in Hns; try discriminate Hns.
  cbn. eexists. split; reflexivity.
Qed.

Lemma struct_time_of_offset_without_fraction_witness :
  exists e,
    struct_time_of (Scenario.world (inr PNone))
      (PDict [("datetime", PStr "2019-03-04T14:30:01-05:00");
              ("day_of_year", PInt 63); ("day_of_week", PInt 1); ("dst", PBool false)])
    = inl e /\ exn_kind e = ValueError.
Proof.
  apply (struct_time_of_offset_without_fraction (Scenario.world (inr PNone))
           (PDict [("datetime", PStr "2019-03-04T14:30:01-05:00");
                   ("day_of_year", PInt 63); ("day_of_week", PInt 1);
                   ("dst", PBool false)])
           "2019-03-04" "14" "30" "01-05" "00" (PInt 63) (PInt 1) (PBool false));
    reflexivity.
Defined.

(* ================================================================== *)
(** ** get_local_time: the response *)

Lemma closes_bind {A B : Type} (m : M A) (k : A -> M B) :
  only not_close m -> (forall a, closes_on_success (k a)) ->
  closes_on_success (bind m k).
Proof.
  intros Hm Hk s. unfold bind.
  destruct (Hm s) as [Hd1 (evs1 & Ht1 & Hq1)].
  assert (Hnot : ~ In EvResponseClose evs1).
  { intros Hin. rewrite Forall_forall in Hq1. exact (Hq1 _ Hin eq_refl). }
  destruct (m s) as [[a|e|] s1]; cbn [fst snd] in *.
  - destruct (Hk a s1) as [Hd2 (evs2 & Ht2 & Hiff)].
    split; [eapply same_display_trans; eassumption|].
    exists (evs1 ++ evs2)%list. split.
    + rewrite Ht2, Ht1, app_assoc. reflexivity.
    + rewrite <- Hiff, in_app_iff. tauto.
  - split; [exact Hd1|]. exists evs1. split; [exact Ht1|].
    split; [contradiction|intros [a Ha]; discriminate].
  - split; [exact Hd1|]. exists evs1. split; [exact Ht1|].
    split; [contradiction|intros [a Ha]; discriminate].
Qed.

(** X21.  [get_local_time] never touches the display, and it closes the
    response exactly when it succeeds: if joining the access point, the
    request, the parsing of the body or the reading of the time stamp
    fails, the error goes to the caller and the response is left
    unclosed. *)
Theorem get_local_time_closes_on_success (W : World) (cfg : Config) (fuel : nat)
  (location : option string) (s : State) :
  same_display s (snd (get_local_time W cfg fuel location s)) /\
  exists evs,
    trace (snd (get_local_time W cfg fuel location s)) = (trace s ++ evs)%list /\
    (In EvResponseClose evs <->
     exists now, fst (get_local_time W cfg fuel location s) = Ok now).
Proof.
  revert s. change (closes_on_success (get_local_time W cfg fuel location)).
  unfold get_local_time. cbv zeta.
  apply closes_bind.
  { unfold _connect_esp.
    repeat first [ progress only_step | solve [unfold not_close; intros; discriminate] ]. }
  intros _. apply closes_bind.
  { repeat first [ progress only_step | solve [unfold not_close; intros; discriminate] ]. }
  intros response. apply closes_bind; [apply only_lift|]. intros time_json.
  apply closes_bind; [apply only_lift|]. intros now.
  apply closes_bind.
  { repeat first [ progress only_step | solve [unfold not_close; intros; discriminate] ]. }
  intros _ s. run. split; [repeat split|].
  exists [EvResponseClose]. split; [reflexivity|].
  split; [intros _; exists now; reflexivity|intros _; left; reflexivity].
Qed.

(* ================================================================== *)
(** ** set_text: the first rendering *)

Lemma length_substring_le (s : string) (k : nat) :
  (String.length (substring 0 k s) <= k)%nat.
Proof.
  revert k. induction s as [|c s IH]; intros [|k]; cbn; try lia.
  specialize (IH k). lia.
Qed.

Lemma length_slice_to (s : string) (n : Z) :
  0 <= n -> Z.of_nat (String.length (slice_to s n)) <= n.
Proof.
  intros Hn. unfold slice_to.
  destruct (Z.leb_spec 0 n) as [_|Hneg]; [|lia].
  pose proof (length_substring_le s
                (Z.to_nat (Z.min n (Z.of_nat (String.length s))))) as Hle.
  lia.
Qed.

(** X22.  The first rendering of a slot that has a position, in a scene
    with room left: [set_text] succeeds, records a new text area with
    the slot's color and position and puts it on top of the scene,
    leaving the rest of the scene as it was.  Its text is [str(val)],
    cut to [maxlen] characters when [maxlen] is positive. *)
Theorem set_text_first_render (W : World) (cfg : Config) (val : PyVal) (index : nat)
  (s : State) (maxlen color x y : Z) :
  _text_font cfg = true ->
  nth_error (_text_maxlen cfg) index = Some maxlen ->
  nth_error (_text_color cfg) index = Some color ->
  nth_error (_text_position cfg) index = Some (Some (x, y)) ->
  nth_error (_text s) index = Some None ->
  (List.length (splash s) < SPLASH_MAX_SIZE)%nat ->
  exists s' text,
    set_text W cfg val index s = (Ok tt, s') /\
    splash s' = (splash s ++ [TextArea (next_obj s) text color x y])%list /\
    _text s' = replace_nth (_text s) index (Some (TextArea (next_obj s) text color x y)) /\
    (maxlen = 0 -> text = py_str W val) /\
    (0 < maxlen -> text = slice_to (py_str W val) maxlen /\
                   Z.of_nat (String.length text) <= maxlen).
Proof.
  intros Hfont Hmax Hcolor Hpos Hslot Hfit.
  unfold set_text. rewrite Hfont.
  unfold lookup at 1. rewrite Hmax.
  unfold bind at 1. unfold ret at 1.
  unfold bind at 1. unfold get_state at 1.
  unfold bind at 1. unfold lookup at 1. rewrite Hslot. unfold ret at 1.
  unfold bind at 1. unfold lookup at 1. rewrite Hpos. unfold ret at 1.
  unfold bind at 1. unfold print, emit, modify.
  unfold bind at 1.
  match goal with
  | |- context [make_text_area cfg ?t index ?st] =>
      rewrite (make_text_area_positioned cfg t index st color x y Hcolor Hpos)
  end.
  rewrite splash_append_fits by exact Hfit.
  eexists. eexists. split; [reflexivity|]. cbn.
  split; [reflexivity|]. split; [reflexivity|]. split.
  - intros ->. reflexivity.
  - intros Hpositive. destruct (Z.eqb_spec maxlen 0) as [->|_]; [lia|].
    cbn [negb]. split; [reflexivity|]. apply length_slice_to. lia.
Qed.

Lemma set_text_first_render_witness :
  exists s' text,
    set_text (Scenario.world (inr PNone)) (Scenario.config false PNone)
      (PStr "hello") 0 Scenario.constructed = (Ok tt, s') /\
    splash s' =
      (splash Scenario.constructed
       ++ [TextArea (next_obj Scenario.constructed) text 8421504 10 20])%list /\
    _text s' =
      replace_nth (_text Scenario.constructed) 0
        (Some (TextArea (next_obj Scenario.constructed) text 8421504 10 20)) /\
    (0 = 0 -> text = py_str (Scenario.world (inr PNone)) (PStr "hello")) /\
    (0 < 0 -> text = slice_to (py_str (Scenario.world (inr PNone)) (PStr "hello")) 0 /\
              Z.of_nat (String.length text) <= 0).
Proof.
  apply (set_text_first_render (Scenario.world (inr PNone)) (Scenario.config false PNone)
           (PStr "hello") 0 Scenario.constructed 0 8421504 10 20);
    try reflexivity.
  vm_compute. lia.
Defined.

Lemma set_text_replace_order_witness :
  exists s',
    set_text (Scenario.world (inr PNone)) Scenario.config3 (PStr "new") 0
      Scenario.three_slots = (Ok tt, s') /\
    splash s' =
      ([Group 0]
       ++ TextArea 4 "new" 1 0 10
          :: rev [TextArea 2 "b" 2 0 20; TextArea 3 "c" 3 0 30])%list /\
    _text s' =
      replace_nth (_text Scenario.three_slots) 0 (Some (TextArea 4 "new" 1 0 10)).
Proof.
  apply (set_text_replace_order (Scenario.world (inr PNone)) Scenario.config3
           (PStr "new") 0 Scenario.three_slots (TextArea 1 "a" 1 0 10)
           [Group 0] [TextArea 2 "b" 2 0 20; TextArea 3 "c" 3 0 30] 0 1 0 10);
    try reflexivity.
  - intros a [<-|[<-|[]]]; reflexivity.
  - vm_compute. lia.
Defined.

(* ================================================================== *)
(** ** fetch: the raw body *)

Lemma getitem_single_char (t : string) :
  String.length t = 1%nat -> getitem (PStr t) (PInt 0) = inr (PStr t).
Proof.
  destruct t as [|c [|d t]]; cbn; try discriminate. reflexivity.
Qed.

(** X23.  With no value path, no pattern, no image path, no callback and
    no text slot, [fetch] returns the body of the response as it is (a
    body of one character included) and adds nothing to the trace after
    the response but the debug print of the body. *)
Theorem fetch_raw_body (W : World) (cfg : Config) (fuel : nat)
  (s s1 : State) (r : Response) :
  fetch_begin W cfg fuel s = (Ok r, s1) ->
  truthy (_json_path cfg) = false ->
  truthy (_regexp_path cfg) = false ->
  truthy (_image_json_path cfg) = false ->
  _success_callback cfg = false ->
  _text s1 = [] ->
  fetch W cfg fuel s =
    (Ok (PStr (resp_text r)),
     set_trace
       (trace s1 ++ (if _debug cfg then [EvPrint [PStr (resp_text r)]] else []))%list
       s1).
Proof.
  intros Hbegin Hjson Hregexp Himage Hcallback Htext.
  unfold fetch. unfold bind at 1. rewrite Hbegin.
  unfold extract, parse_json, extract_values, extract_image_url, finish,
    run_callback, render_text, return_values, fetch_image.
  rewrite Hjson, Hregexp, Himage, Hcallback. cbn [orb].
  destruct (_debug cfg);
    unfold bind, ret, raise, print, emit, modify, get_state, try_except, when,
      lift, gc_collect;
    cbn -[getitem Z.of_nat String.length Z.eqb]; rewrite Htext;
    cbn -[getitem Z.of_nat String.length Z.eqb];
    rewrite ?app_nil_r;
    (destruct (Z.eqb_spec (Z.of_nat (String.length (resp_text r))) 1) as [Hone|_];
     [rewrite getitem_single_char by lia|]);
    try reflexivity; destruct s1; reflexivity.
Qed.

(* ================================================================== *)
(** ** The statements above, on the concrete devices *)

Lemma connect_esp_connected_witness :
  w_is_connected (Scenario.world (inr PNone)) (trace Cases.connected) = true /\
  exists evs,
    trace Cases.connected = (trace Scenario.constructed ++ evs ++ [EvIsConnected])%list.
Proof.
  apply (connect_esp_connected (Scenario.world (inr PNone)) (Scenario.config false PNone)
           1 Scenario.constructed Cases.connected).
  vm_compute. reflexivity.
Defined.

Lemma set_background_shows_witness :
  exists id h,
    _bg_group Cases.shown = [Sprite id h] /\
    _bg_file Cases.shown = Some h /\
    In (EvOpen "/a.bmp" "rb" h) (trace Cases.shown) /\
    splash Cases.shown = splash Scenario.blank /\
    _text Cases.shown = _text Scenario.blank.
Proof.
  apply (set_background_shows (Scenario.world (inr PNone)) "/a.bmp"
           Scenario.blank Cases.shown).
  - reflexivity.
  - vm_compute. lia.
  - vm_compute. reflexivity.
Defined.

Lemma set_background_failure_blank_witness :
  _bg_group Cases.not_shown = [] /\
  splash Cases.not_shown = splash Scenario.constructed /\
  _text Cases.not_shown = _text Scenario.constructed.
Proof.
  apply (set_background_failure_blank Cases.world_no_file (Some "/missing.bmp")
           Scenario.constructed Cases.not_shown Cases.no_such_file).
  - vm_compute. lia.
  - vm_compute. reflexivity.
Defined.

Lemma fetch_value_error_propagates_witness :
  exists s',
    fetch (Scenario.world (inr (PDict []))) (Scenario.config false PNone) 1
      Scenario.constructed = (Raise (mkExn KeyError [PStr "title"]), s') /\
    trace s' =
      (trace Cases.responded ++
       (if _debug (Scenario.config false PNone)
        then [EvPrint [PStr (resp_text (Scenario.reply Scenario.body))]] else []))%list /\
    same_display Scenario.constructed s'.
Proof.
  apply (fetch_value_error_propagates (Scenario.world (inr (PDict [])))
           (Scenario.config false PNone) 1 Scenario.constructed Cases.responded
           (Scenario.reply Scenario.body) (PDict []) [PList [PStr "title"]]
           (mkExn KeyError [PStr "title"]));
    vm_compute; reflexivity.
Defined.

Lemma fetch_no_response_keeps_display_witness :
  fetch Cases.world_offline (Scenario.config false PNone) 1 Scenario.constructed
  = (Raise Cases.join_failed, Cases.not_joined) /\
  same_display Scenario.constructed Cases.not_joined /\
  (forall ev, In ev (trace Cases.not_joined) -> is_image_event ev = true ->
     In ev (trace Scenario.constructed)).
Proof.
  apply (fetch_no_response_keeps_display Cases.world_offline
           (Scenario.config false PNone) 1 Scenario.constructed Cases.not_joined
           Cases.join_failed).
  vm_compute. reflexivity.
Defined.

Lemma fetch_local_response_offline_witness :
  fst (fetch_begin (Scenario.world (inr Scenario.doc_with_photo))
         (Scenario.config true PNone) 0 Scenario.constructed) <> OutOfFuel /\
  exists evs,
    trace (snd (fetch_begin (Scenario.world (inr Scenario.doc_with_photo))
                  (Scenario.config true PNone) 0 Scenario.constructed))
    = (trace Scenario.constructed ++ evs)%list /\
    Forall (fun e => is_network e = false) evs.
Proof.
  apply (fetch_local_response_offline (Scenario.world (inr Scenario.doc_with_photo))
           (Scenario.config true PNone) 0 Scenario.constructed).
  reflexivity.
Defined.

Lemma fetch_missing_key_falls_back_witness :
  fetch (Scenario.world (inr Scenario.doc_empty_images))
    (Scenario.config false (PList [PStr "images"; PStr "x"])) 1 Scenario.constructed =
    (set_background (Scenario.world (inr Scenario.doc_empty_images))
       (_default_bg (Scenario.config false (PList [PStr "images"; PStr "x"]))) ;;
     finish (Scenario.world (inr Scenario.doc_empty_images))
       (Scenario.config false (PList [PStr "images"; PStr "x"])) (PList [PStr "1234"]))
      (set_trace
         ((trace Cases.responded ++
           (if _debug (Scenario.config false (PList [PStr "images"; PStr "x"]))
            then [EvPrint [PStr (resp_text (Scenario.reply Scenario.body))]] else []))
          ++ [EvPrint [PStr ("Error finding image data. '" ++ "x" ++ "' not found.")]])
         Cases.responded).
Proof.
  apply (fetch_missing_key_falls_back (Scenario.world (inr Scenario.doc_empty_images))
           (Scenario.config false (PList [PStr "images"; PStr "x"])) 1
           Scenario.constructed Cases.responded (Scenario.reply Scenario.body)
           Scenario.doc_empty_images (PList [PStr "1234"]) "x" []);
    vm_compute; reflexivity.
Defined.

Lemma fetch_raw_body_witness :
  fetch (Scenario.world (inr PNone)) Cases.config_raw 1 Cases.no_text =
    (Ok (PStr (resp_text (Scenario.reply Scenario.body))),
     set_trace
       (trace Cases.responded_raw ++
        (if _debug Cases.config_raw
         then [EvPrint [PStr (resp_text (Scenario.reply Scenario.body))]] else []))%list
       Cases.responded_raw).
Proof.
  apply (fetch_raw_body (Scenario.world (inr PNone)) Cases.config_raw 1
           Cases.no_text Cases.responded_raw (Scenario.reply Scenario.body));
    vm_compute; reflexivity.
Defined.
